(** * soundprojector.ino: the modulation callback and the trigger poll

    A shallow embedding of the sketch's global state, of [modulate], of
    [checkTrigger] and of [startPlayback], followed by the properties of the
    playback session, of the debounce and of the test tone.

    Every call into the platform (file system, serial port, LEDC, clock,
    ADC) is either an input of the embedded function or an entry of the
    event list it returns, in program order. *)

From Stdlib Require Import ZArith List Bool Lia Floats QArith Reals Lra.
From Stdlib Require Strings.Byte.
From Stdlib Require String.
Import ListNotations.

Local Open Scope Z_scope.

(** ** Build configuration *)

(** The [#define] switches at the top of the sketch. *)
Record Build := {
  ENABLE_LIVE_INPUT : bool;
  ENABLE_STATUS_LED : bool;
  TEST_MODE_DC : bool;
  TEST_MODE_SINE : bool }.

(** The switches as the sketch is checked in: only [TEST_MODE_SINE]. *)
Definition sketch_build : Build :=
  {| ENABLE_LIVE_INPUT := false; ENABLE_STATUS_LED := false;
     TEST_MODE_DC := false; TEST_MODE_SINE := true |}.

Definition PWM_PIN : Z := 16.
Definition LED_PIN : Z := 15.
Definition LED_BRIGHTNESS_READY : Z := 30.
Definition LED_BRIGHTNESS_PLAY : Z := 200.

Definition debounceDelay : Z := 50.
Definition sineTableSize : Z := 100.

(** ** Machine arithmetic *)

(** [unsigned long] and [unsigned int] are 32 bits wide on the ESP32-S2. *)
Definition wrap32 (z : Z) : Z := z mod 2 ^ 32.

Definition INT_MIN : Z := - 2 ^ 31.
Definition INT_MAX : Z := 2 ^ 31 - 1.

Module IEEE.

(** Narrowing of a double to [float] (binary32), round to nearest even. *)
Definition to_float32 (x : float) : float :=
  match Prim2SF x with
  | S754_finite s m e => SF2Prim (binary_round 24 128 s m e)
  | _ => x
  end.

(** An unsigned integer below 2^63 as a double. *)
Definition of_unsigned (z : Z) : float := of_uint63 (Uint63.of_Z z).

(** The cast [(int)x]: truncation toward zero.  C++ leaves the cast of a
    NaN, of an infinity and of a value outside [int] undefined; the
    embedding returns 0 there. *)
Definition to_int (x : float) : Z :=
  match Prim2SF x with
  | S754_finite s m e =>
      let a := Z.shiftl (Zpos m) e in
      let v := if s then - a else a in
      if (INT_MIN <=? v) && (v <=? INT_MAX) then v else 0
  | _ => 0
  end.

(** The Arduino core's [PI], the double nearest to pi. *)
Definition PI : float := 0x1.921fb54442d18p+1%float.

End IEEE.

(** [const float testFreq = 1000.0]. *)
Definition testFreq : float := IEEE.to_float32 1000%float.

(** [const float phaseIncrement = (testFreq * sineTableSize) / 40000.0]:
    a [float] product, divided in double, stored as [float]. *)
Definition phaseIncrement : float :=
  IEEE.to_float32
    (IEEE.to_float32 (testFreq * IEEE.of_unsigned sineTableSize) / 40000)%float.

(** ** Files *)

(** An open [File]: the bytes of the resource and the read position.  A
    closed or invalid [File] (one whose [operator bool] is false) is [None]. *)
Record OpenFile := { content : list Byte.byte; position : nat }.
Definition File := option OpenFile.

Definition byte_value (x : Byte.byte) : Z := Z.of_N (Strings.Byte.to_N x).

Definition available (f : OpenFile) : nat := length (content f) - position f.

Definition size (f : OpenFile) : Z := Z.of_nat (length (content f)).

(** [File::read()]: the next byte as an [int] and the advanced handle, or -1. *)
Definition read (f : OpenFile) : Z * OpenFile :=
  match nth_error (content f) (position f) with
  | Some x => (byte_value x, {| content := content f; position := S (position f) |})
  | None => (-1, f)
  end.

(** What SPIFFS holds under [audioFilePath] when it is asked, and whether an
    [open] of an existing file yields a valid handle. *)
Record Spiffs := { audio_raw : option (list Byte.byte); open_ok : bool }.

Definition SPIFFS_exists (fs : Spiffs) : bool :=
  match audio_raw fs with Some _ => true | None => false end.

Definition SPIFFS_open (fs : Spiffs) : File :=
  match audio_raw fs with
  | Some d => if open_ok fs then Some {| content := d; position := 0 |} else None
  | None => None
  end.

(** ** Events *)

Inductive SizeUnit := MB | KB | Bytes.

(** The lines the three functions print on [Serial]. *)
Inductive Line :=
| PlaybackFinished
| StartingPlayback (u : SizeUnit) (fileSize : Z) (durationSeconds : float)
| FailedToOpen
| AudioFileNotFound.

Inductive Event :=
| SpiffsOpen (valid : bool)
| FileRead (v : Z)
| FileClose
| LedcWrite (pin duty : Z)
| SerialPrintln (l : Line).

(** ** Global state *)

Record State := {
  lastTriggerTime : Z;
  lastTriggerState : bool;
  triggerState : bool;
  isPlaying : bool;
  audioFile : File;
  sinePhase : Z }.

Definition initial : State :=
  {| lastTriggerTime := 0; lastTriggerState := false; triggerState := false;
     isPlaying := false; audioFile := None; sinePhase := 0 |}.

Definition set_lastTriggerTime (t : Z) (s : State) : State :=
  {| lastTriggerTime := t; lastTriggerState := lastTriggerState s;
     triggerState := triggerState s; isPlaying := isPlaying s;
     audioFile := audioFile s; sinePhase := sinePhase s |}.

Definition set_lastTriggerState (r : bool) (s : State) : State :=
  {| lastTriggerTime := lastTriggerTime s; lastTriggerState := r;
     triggerState := triggerState s; isPlaying := isPlaying s;
     audioFile := audioFile s; sinePhase := sinePhase s |}.

Definition set_triggerState (r : bool) (s : State) : State :=
  {| lastTriggerTime := lastTriggerTime s; lastTriggerState := lastTriggerState s;
     triggerState := r; isPlaying := isPlaying s;
     audioFile := audioFile s; sinePhase := sinePhase s |}.

Definition set_isPlaying (p : bool) (s : State) : State :=
  {| lastTriggerTime := lastTriggerTime s; lastTriggerState := lastTriggerState s;
     triggerState := triggerState s; isPlaying := p;
     audioFile := audioFile s; sinePhase := sinePhase s |}.

Definition set_audioFile (f : File) (s : State) : State :=
  {| lastTriggerTime := lastTriggerTime s; lastTriggerState := lastTriggerState s;
     triggerState := triggerState s; isPlaying := isPlaying s;
     audioFile := f; sinePhase := sinePhase s |}.

Definition set_sinePhase (p : Z) (s : State) : State :=
  {| lastTriggerTime := lastTriggerTime s; lastTriggerState := lastTriggerState s;
     triggerState := triggerState s; isPlaying := isPlaying s;
     audioFile := audioFile s; sinePhase := p |}.

(** The status LED write, present only under [ENABLE_STATUS_LED]. *)
Definition led (b : Build) (duty : Z) : list Event :=
  if ENABLE_STATUS_LED b then [LedcWrite LED_PIN duty] else [].

(** ** The three functions of the sketch *)

Section Sketch.

Variable build : Build.

(** The C library's [sin] away from zero.  Its code is not part of the
    sketch, so it is left open; nothing below depends on its values. *)
Variable libm_sin : float -> float.

(** [sin]: C99 F.9.1.6 fixes [sin(+-0) = +-0]; every other value is the
    library's. *)
Definition c_sin (x : float) : float :=
  if is_zero x then x else libm_sin x.

(** [float angle = (sinePhase * 2.0 * PI) / sineTableSize]. *)
Definition sine_angle (p : Z) : float :=
  IEEE.to_float32
    ((IEEE.of_unsigned p * 2 * IEEE.PI) / IEEE.of_unsigned sineTableSize)%float.

(** [audio = 127 + (int)(127.0 * sin(angle))]. *)
Definition sine_audio (p : Z) : Z :=
  127 + IEEE.to_int (127 * c_sin (sine_angle p))%float.

(** [sinePhase += (int)phaseIncrement], then the single conditional
    subtraction of [sineTableSize], both on [unsigned int]. *)
Definition sine_next (p : Z) : Z :=
  let p1 := wrap32 (p + IEEE.to_int phaseIncrement) in
  if sineTableSize <=? p1 then wrap32 (p1 - sineTableSize) else p1.

(** The [else] branch of [modulate]: the [#if]/[#elif] chain.  [adc] is
    what [analogRead(AUDIO_PIN)] returns. *)
Definition fallback (adc : Z) (s : State) : State * Z :=
  if TEST_MODE_DC build then (s, 127)
  else if TEST_MODE_SINE build then
    (set_sinePhase (sine_next (sinePhase s)) s, sine_audio (sinePhase s))
  else if ENABLE_LIVE_INPUT build then (s, Z.quot adc 4)
  else (s, 0).

Definition modulate (adc : Z) (s : State) : State * list Event :=
  match isPlaying s, audioFile s with
  | true, Some f =>
      if (0 <? available f)%nat then
        let (audio, f') := read f in
        (set_audioFile (Some f') s, [FileRead audio; LedcWrite PWM_PIN audio])
      else
        (set_isPlaying false (set_audioFile None s),
         [FileClose] ++ led build LED_BRIGHTNESS_READY
           ++ [SerialPrintln PlaybackFinished; LedcWrite PWM_PIN 0])
  | _, _ =>
      let (s', audio) := fallback adc s in (s', [LedcWrite PWM_PIN audio])
  end.

(** [float durationSeconds = (float)fileSize / 40000.0]. *)
Definition durationSeconds (fileSize : Z) : float :=
  IEEE.to_float32 (IEEE.to_float32 (IEEE.of_unsigned fileSize) / 40000)%float.

Definition starting_line (fileSize : Z) : Line :=
  if 1048576 <=? fileSize then StartingPlayback MB fileSize (durationSeconds fileSize)
  else if 1024 <=? fileSize then StartingPlayback KB fileSize (durationSeconds fileSize)
  else StartingPlayback Bytes fileSize (durationSeconds fileSize).

Definition startPlayback (fs : Spiffs) (s : State) : State * list Event :=
  if SPIFFS_exists fs then
    let s1 := set_audioFile (SPIFFS_open fs) s in
    match audioFile s1 with
    | Some f =>
        (set_isPlaying true s1,
         [SpiffsOpen true] ++ led build LED_BRIGHTNESS_PLAY
           ++ [SerialPrintln (starting_line (size f))])
    | None => (s1, [SpiffsOpen false; SerialPrintln FailedToOpen])
    end
  else (s, [SerialPrintln AudioFileNotFound]).

(** [pin] is what [digitalRead(TRIGGER_PIN)] returns; [m1] is what
    [millis()] returns in the first [if] (when it is reached) and [m2] what
    it returns in the second. *)
Definition checkTrigger (pin : bool) (m1 m2 : Z) (fs : Spiffs) (s : State)
  : State * list Event :=
  let reading := negb pin in
  let s1 := if xorb reading (lastTriggerState s)
            then set_lastTriggerTime m1 s else s in
  let (s2, out) :=
    if debounceDelay <? wrap32 (m2 - lastTriggerTime s1) then
      if xorb reading (triggerState s1) then
        let s' := set_triggerState reading s1 in
        if triggerState s' && negb (isPlaying s') then startPlayback fs s'
        else (s', [])
      else (s1, [])
    else (s1, []) in
  (set_lastTriggerState reading s2, out).

(** *** Runs *)

(** [loop] calls [checkTrigger]; the ticker calls [modulate]. *)
Inductive Call :=
| Modulate (adc : Z)
| CheckTrigger (pin : bool) (m1 m2 : Z) (fs : Spiffs).

Definition step (c : Call) (s : State) : State * list Event :=
  match c with
  | Modulate adc => modulate adc s
  | CheckTrigger pin m1 m2 fs => checkTrigger pin m1 m2 fs s
  end.

Fixpoint run (cs : list Call) (s : State) : State * list Event :=
  match cs with
  | [] => (s, [])
  | c :: cs' =>
      let (s1, out1) := step c s in
      let (s2, out2) := run cs' s1 in
      (s2, out1 ++ out2)
  end.

End Sketch.

(** ** Reading an event list *)

Definition pwm_of (e : Event) : list Z :=
  match e with
  | LedcWrite pin duty => if pin =? PWM_PIN then [duty] else []
  | _ => []
  end.

Definition serial_of (e : Event) : list Line :=
  match e with SerialPrintln l => [l] | _ => [] end.

Definition is_file_op (e : Event) : bool :=
  match e with SpiffsOpen _ | FileRead _ | FileClose => true | _ => false end.

(** The duty values written to the carrier pin, in order. *)
Definition pwm_writes (out : list Event) : list Z := flat_map pwm_of out.

(** The lines printed, in order. *)
Definition serial_lines (out : list Event) : list Line := flat_map serial_of out.

(** The calls on SPIFFS and on [audioFile], in order. *)
Definition file_ops (out : list Event) : list Event := filter is_file_op out.

(** A state is consistent when [isPlaying] says whether [audioFile] is open. *)
Definition consistent (s : State) : Prop :=
  match audioFile s with
  | Some _ => isPlaying s = true
  | None => isPlaying s = false
  end.

(** ** Polling the trigger *)

(** One pass of [loop]: the level of the trigger pin, the time (in ms since
    boot, unbounded) of each of the two [millis()] calls, and the file
    system as [startPlayback] would find it. *)
Record Poll := {
  pin_level : bool;
  clock1 : Z;
  clock2 : Z;
  spiffs : Spiffs }.

(** [millis()] is the time wrapped to 32 bits. *)
Definition millis (t : Z) : Z := wrap32 t.

Definition poll (b : Build) (p : Poll) (s : State) : State :=
  fst (checkTrigger b (pin_level p) (millis (clock1 p)) (millis (clock2 p))
         (spiffs p) s).

(** The confirmed level [triggerState] after each poll. *)
Fixpoint confirmed_levels (b : Build) (ps : list Poll) (s : State) : list bool :=
  match ps with
  | [] => []
  | p :: ps' => triggerState (poll b p s) :: confirmed_levels b ps' (poll b p s)
  end.

(** How often the confirmed level changes along [l], starting from [prev]. *)
Fixpoint transitions (prev : bool) (l : list bool) : nat :=
  match l with
  | [] => 0
  | x :: l' => (if xorb prev x then 1 else 0) + transitions x l'
  end.

(** The clock readings of the polls follow one another, none before [t]. *)
Fixpoint chronological (t : Z) (ps : list Poll) : Prop :=
  match ps with
  | [] => True
  | p :: ps' => t <= clock1 p /\ clock1 p <= clock2 p /\ chronological (clock2 p) ps'
  end.

(** The poll [q] comes more than [debounceDelay] after [t1]. *)
Definition overdue (t1 : Z) (q : Poll) : bool := debounceDelay <? clock2 q - t1.

(** ** Builds and inputs for examples *)

(** Bhaskara's rational approximation of the sine on [0, 2 pi]: a concrete
    library function for evaluating the sketch on examples. *)
Definition bhaskara_sin (x : float) : float :=
  let arch (y : float) : float :=
    (16 * y * (IEEE.PI - y)
       / (5 * IEEE.PI * IEEE.PI - 4 * y * (IEEE.PI - y)))%float in
  if (x <=? IEEE.PI)%float then arch x else (- arch (x - IEEE.PI))%float.

(** The bytes 10, 200, 0. *)
Definition three_bytes : list Byte.byte := [Byte.x0a; Byte.xc8; Byte.x00].

Definition playing (B : list Byte.byte) (pos : nat) : State :=
  set_isPlaying true
    (set_audioFile (Some {| content := B; position := pos |}) initial).

(** A press seen at 1000 ms that bounces for 20 ms, and a press seen at
    1000 ms that is held for 60 ms; polls every 10 ms. *)
Definition sample_poll (level : bool) (t : Z) : Poll :=
  {| pin_level := level; clock1 := t; clock2 := t;
     spiffs := {| audio_raw := Some three_bytes; open_ok := true |} |}.

Definition bouncing_press : list Poll :=
  [sample_poll false 1000; sample_poll true 1010; sample_poll false 1020].

Definition held_press : list Poll :=
  map (sample_poll false) [1000; 1010; 1020; 1030; 1040; 1050; 1060].

(** The build with [ENABLE_LIVE_INPUT] and no test mode. *)
Definition live_build : Build :=
  {| ENABLE_LIVE_INPUT := true; ENABLE_STATUS_LED := false;
     TEST_MODE_DC := false; TEST_MODE_SINE := false |}.

(** The playback-only build: every switch off, silence when idle. *)
Definition playback_only_build : Build :=
  {| ENABLE_LIVE_INPUT := false; ENABLE_STATUS_LED := false;
     TEST_MODE_DC := false; TEST_MODE_SINE := false |}.

(** The trigger held low from 1000 ms to 1060 ms, released until 1160 ms,
    and held low again until 1260 ms, with four, then two calls of
    [modulate] after each confirmed press. *)
Definition two_presses : list Call :=
  let fs := {| audio_raw := Some three_bytes; open_ok := true |} in
  [CheckTrigger false 1000 1000 fs; CheckTrigger false 1060 1060 fs;
   Modulate 0; Modulate 0; Modulate 0; Modulate 0;
   CheckTrigger true 1100 1100 fs; CheckTrigger true 1160 1160 fs;
   CheckTrigger false 1200 1200 fs; CheckTrigger false 1260 1260 fs;
   Modulate 0; Modulate 0].

(** ** The test tone from boot *)

(** The phase at call [i] of a run of the fallback branch from boot. *)
Definition phase_at (i : nat) : Z := Nat.iter i sine_next 0.

(** The samples that a run of calls from boot, one per ADC reading, writes
    in the sketch's build. *)
Definition tone_samples (libm_sin : float -> float) (adcs : list Z) : list Z :=
  pwm_writes (snd (run sketch_build libm_sin (map Modulate adcs) initial)).

(** ** The fixed tone as specified *)

(** The sample as the specification words it, over the reals:
    [128 + round(127 * sin(2 pi phase / N))] with [N = 100], rounding to
    the nearest integer. *)
Definition spec_round (x : R) : Z := Int_part (x + / 2).

Definition spec_fixedTone (phase : R) : Z :=
  128 + spec_round (127 * sin (2 * PI * phase / 100)).

(** ** Observers for runs of the whole sketch *)

(** The duty values written to the status LED pin, in order. *)
Definition led_of (e : Event) : list Z :=
  match e with
  | LedcWrite pin duty => if pin =? LED_PIN then [duty] else []
  | _ => []
  end.

Definition led_writes (out : list Event) : list Z := flat_map led_of out.


(** The calls on SPIFFS and on [audioFile] as a protocol: starting with the
    handle open or not, [Some] of the final status when every read and
    close happens on an open handle and every open on a closed one. *)
Fixpoint handle_protocol (open : bool) (out : list Event) : option bool :=
  match out with
  | [] => Some open
  | SpiffsOpen valid :: out' =>
      if open then None else handle_protocol valid out'
  | FileRead _ :: out' => if open then handle_protocol true out' else None
  | FileClose :: out' => if open then handle_protocol false out' else None
  | _ :: out' => handle_protocol open out'
  end.

(** The lines that [startPlayback] prints: one per call of it. *)
Definition is_start_line (e : Event) : bool :=
  match e with
  | SerialPrintln PlaybackFinished => false
  | SerialPrintln _ => true
  | _ => false
  end.

(** How many times a run called [startPlayback]. *)
Definition starts (out : list Event) : nat := length (filter is_start_line out).

(** Every poll of the run reads the trigger pin at [level]. *)
Definition trigger_held_at (level : bool) (cs : list Call) : Prop :=
  forall pin m1 m2 fs, In (CheckTrigger pin m1 m2 fs) cs -> pin = level.

Definition is_modulate (c : Call) : bool :=
  match c with Modulate _ => true | CheckTrigger _ _ _ _ => false end.

(** How many times a run called [modulate]. *)
Definition modulate_calls (cs : list Call) : nat := length (filter is_modulate cs).

(** The pass of [loop] that the poll [p] stands for. *)
Definition poll_call (p : Poll) : Call :=
  CheckTrigger (pin_level p) (millis (clock1 p)) (millis (clock2 p)) (spiffs p).

(** Two states with the same debounce variables. *)
Definition same_trigger (s1 s2 : State) : Prop :=
  lastTriggerTime s1 = lastTriggerTime s2
  /\ lastTriggerState s1 = lastTriggerState s2
  /\ triggerState s1 = triggerState s2.

(** Two polls with the same pin level and clock readings. *)
Definition same_reading (p q : Poll) : Prop :=
  pin_level p = pin_level q /\ clock1 p = clock1 q /\ clock2 p = clock2 q.

(** The fallback source of the build never needs more than 8 bits on the
    calls [cs]: the DC test, silence, or live input with every ADC reading
    below 1024. *)
Definition fallback_fits_8_bits (b : Build) (cs : list Call) : Prop :=
  TEST_MODE_DC b = true
  \/ (TEST_MODE_SINE b = false
      /\ (ENABLE_LIVE_INPUT b = false
          \/ forall adc, In (Modulate adc) cs -> 0 <= adc <= 1023)).

(** ** [setup] *)

Module Boot.

Import String.StringSyntax.
Local Open Scope string_scope.

Definition TRIGGER_PIN : Z := 18.
Definition AUDIO_PIN : Z := 5.
Definition PWM_FREQ : Z := 40000.
Definition PWM_RES : Z := 8.
Definition LED_FREQ : Z := 5000.
Definition LED_RES : Z := 8.
Definition audioFilePath : String.string := "/audio.raw".

Inductive Arg :=
| ArgInt (z : Z)
| ArgStr (s : String.string)
| ArgFloat (x : float).

Inductive PinModes := INPUT_PULLUP | OUTPUT.

(** The calls [setup] makes on the platform, in program order.  Strings are
    the source's literals, escapes unexpanded.  [Io] carries the calls the
    rest of the sketch makes too: file open and close, [ledcWrite]. *)
Inductive Action :=
| SerialBegin (baud : Z)
| Delay (ms : Z)
| Println (s : String.string)
| Printf (fmt : String.string) (args : list Arg)
| WiFiOff
| SpiffsBegin (formatOnFail : bool)
| Io (e : Event)
| PinMode (pin : Z) (m : PinModes)
| LedcAttach (pin freq res : Z)
| TickerAttach (period_ms : float).

(** What the platform answers during [setup]: at the [k]-th evaluation of
    the wait loop's condition whether [Serial] is true and what [millis()]
    returns; what the first [millis()] returned; whether [SPIFFS.begin]
    succeeds; the file system; the frequency [ledcAttach] reports for the
    carrier pin. *)
Record Platform := {
  serial_obs : nat -> bool * Z;
  start_millis : Z;
  spiffs_begin : bool;
  flash : Spiffs;
  actual_freq : Z }.

(** [while (!Serial && (millis() - start) < 3000) delay(10);] from the
    [k]-th evaluation of the condition on: the number of [delay(10)] calls,
    or [None] when [fuel] evaluations do not reach the exit. *)
Fixpoint wait_for_serial
  (fuel : nat) (start : Z) (obs : nat -> bool * Z) (k : nat) : option nat :=
  match fuel with
  | O => None
  | S fuel' =>
      if negb (fst (obs k)) && (wrap32 (snd (obs k) - start) <? 3000)
      then option_map S (wait_for_serial fuel' start obs (S k))
      else Some O
  end.

(** [(int)x] for a [uint32_t] [x]. *)
Definition to_int32 (z : Z) : Z := (z + 2 ^ 31) mod 2 ^ 32 - 2 ^ 31.

(** [abs(x)] on a float.  It is evaluated only when the frequencies differ
    by more than 1000 Hz, where Arduino's macro [((x)>0?(x):-(x))] and
    [std::abs] agree. *)
Definition abs_macro (x : float) : float :=
  if (0 <? x)%float then x else (- x)%float.

(** [abs((float)actual_freq - PWM_FREQ) / PWM_FREQ * 100], in [float]. *)
Definition deviation_percent (actual : Z) : float :=
  let d := IEEE.to_float32
             (IEEE.to_float32 (IEEE.of_unsigned actual)
              - IEEE.of_unsigned PWM_FREQ)%float in
  IEEE.to_float32
    (IEEE.to_float32 (abs_macro d / IEEE.of_unsigned PWM_FREQ) * 100)%float.

(** The check of the audio file: [File f] is local, its [size()] is 0 when
    the handle is invalid. *)
Definition probe (fs : Spiffs) : list Action :=
  if SPIFFS_exists fs then
    [Printf "Audio file found: %s\n" [ArgStr audioFilePath];
     Io (SpiffsOpen (match SPIFFS_open fs with Some _ => true | None => false end));
     Printf "File size: %d bytes\n"
       [ArgInt (match SPIFFS_open fs with Some f => size f | None => 0 end)];
     Io FileClose]
  else
    [Printf "Audio file not found: %s\n" [ArgStr audioFilePath];
     Println "Upload audio.raw to SPIFFS using data upload tool"].

Definition frequency_report (actual : Z) : list Action :=
  [Printf "PWM configured: GPIO%d, requested %dkHz, actual %.2fkHz, %d-bit resolution\n"
     [ArgInt PWM_PIN; ArgInt (Z.quot PWM_FREQ 1000);
      ArgFloat (IEEE.of_unsigned actual / 1000)%float; ArgInt PWM_RES]]
  ++ (if 1000 <? Z.abs (to_int32 actual - PWM_FREQ) then
        [Printf "  WARNING: Actual frequency differs by %.1f%% due to clock divider constraints\n"
           [ArgFloat (deviation_percent actual)];
         Println "  This is normal for ESP32 LEDC. Transducer should still work."]
      else []).

Definition test_mode_start (b : Build) : list Action :=
  (if TEST_MODE_DC b then
     [Io (LedcWrite PWM_PIN 127);
      Printf "TEST MODE DC: Set GPIO%d to value 127 (50%% duty)\n" [ArgInt PWM_PIN];
      Delay 100]
   else [])
  ++ (if TEST_MODE_SINE b then
        [Println "TEST MODE SINE: 1kHz tone will start after modulation timer begins"]
      else []).

Definition led_start (b : Build) : list Action :=
  if ENABLE_STATUS_LED b then
    [PinMode LED_PIN OUTPUT; LedcAttach LED_PIN LED_FREQ LED_RES;
     Io (LedcWrite LED_PIN LED_BRIGHTNESS_READY);
     Printf "Status LED: GPIO%d (dim=ready, bright=playing)\n" [ArgInt LED_PIN]]
  else [].

Definition pin_report (b : Build) : list Action :=
  [Println "\n=== GPIO Pin Configuration ===";
   Printf "  PWM Output:    GPIO%d -> TPA3116 amplifier (40kHz carrier)\n" [ArgInt PWM_PIN];
   Printf "  Trigger Input: GPIO%d -> Active LOW with internal pullup\n" [ArgInt TRIGGER_PIN]]
  ++ (if ENABLE_LIVE_INPUT b then
        [Printf "  ADC Input:     GPIO%d -> Live audio input (0-3.3V)\n" [ArgInt AUDIO_PIN]]
      else [])
  ++ (if ENABLE_STATUS_LED b then
        [Printf "  Status LED:    GPIO%d -> PWM brightness control\n" [ArgInt LED_PIN]]
      else []).

Definition mode_report (b : Build) : list Action :=
  [Println "\n=== Operating Mode ==="]
  ++ (if TEST_MODE_DC b then
        [Println "  *** TEST MODE: DC OUTPUT ***";
         Printf "  Continuous 50%% duty cycle on GPIO%d\n" [ArgInt PWM_PIN];
         Println "  Expected DC voltage: ~1.65V (measure with multimeter)";
         Println "  NOTE: Triggering file playback will override test mode"]
      else if TEST_MODE_SINE b then
        [Println "  *** TEST MODE: SINE WAVE ***";
         Printf "  1kHz sine wave modulating 40kHz carrier on GPIO%d\n" [ArgInt PWM_PIN];
         Println "  You should hear a 1kHz tone from the ultrasonic beam";
         Println "  Use oscilloscope to see 40kHz carrier with 1kHz AM envelope";
         Println "  NOTE: Triggering file playback will override test mode"]
      else if ENABLE_LIVE_INPUT b then
        [Println "  - Live ADC input (GPIO5) -> Continuous audio modulation";
         Println "  - Trigger (GPIO18 to GND) -> Override with stored audio playback"]
      else
        [Println "  - Playback-only (silence when idle)";
         Println "  - Trigger (GPIO18 to GND) -> Play stored audio file"]).

(** What [setup] does up to the start of the ticker, once SPIFFS is mounted. *)
Definition bring_up (b : Build) (pf : Platform) : list Action :=
  [Println "SPIFFS initialized"]
  ++ probe (flash pf)
  ++ [PinMode TRIGGER_PIN INPUT_PULLUP; PinMode PWM_PIN OUTPUT;
      Println "GPIO pins configured";
      LedcAttach PWM_PIN PWM_FREQ PWM_RES]
  ++ frequency_report (actual_freq pf)
  ++ test_mode_start b
  ++ led_start b.

(** What [setup] does from the start of the ticker on. *)
Definition announce (b : Build) : list Action :=
  [Println "40kHz modulation timer started"]
  ++ pin_report b ++ mode_report b ++ [Println "\n=== READY ===\n"].

(** [modulator.attach_ms(0.025, modulate)]: the literal as a double. *)
Definition ticker_period : float := 0x1.999999999999ap-6%float.

(** [setup] after the wait for the serial monitor. *)
Definition after_wait (b : Build) (pf : Platform) : list Action :=
  [Println "\n\n=== Ultrasonic Sound Projector ===";
   Println "Board: Lolin S2 Mini (ESP32-S2)";
   WiFiOff;
   Println "WiFi disabled";
   SpiffsBegin true]
  ++ (if negb (spiffs_begin pf) then [Println "SPIFFS initialization failed!"]
      else bring_up b pf ++ [TickerAttach ticker_period] ++ announce b).

Definition setup (b : Build) (fuel : nat) (pf : Platform) : option (list Action) :=
  match wait_for_serial fuel (start_millis pf) (serial_obs pf) 0 with
  | Some n => Some ([SerialBegin 115200] ++ repeat (Delay 10) n ++ after_wait b pf)
  | None => None
  end.

(** The actions that configure or drive the hardware or start the ticker. *)
Definition touches_hardware (a : Action) : bool :=
  match a with
  | Io _ | PinMode _ _ | LedcAttach _ _ _ | TickerAttach _ => true
  | _ => false
  end.

Definition io_of (a : Action) : list Event :=
  match a with Io e => [e] | _ => [] end.

(** The file and [ledcWrite] events among the actions, in order. *)
Definition io_events (acts : list Action) : list Event := flat_map io_of acts.

(** A platform whose serial monitor opens at the third look of the wait
    loop, 20 ms after [setup] started at 5 ms. *)
Definition bench (mounts : bool) : Platform :=
  {| serial_obs := fun k => (Nat.leb 2 k, 5 + 10 * Z.of_nat k);
     start_millis := 5;
     spiffs_begin := mounts;
     flash := {| audio_raw := Some three_bytes; open_ok := true |};
     actual_freq := 39062 |}.

End Boot.

(** * Properties *)

(** ** Arithmetic of the phase accumulator *)

Lemma to_int_phaseIncrement : IEEE.to_int phaseIncrement = 2.
Proof. vm_compute. reflexivity. Qed.

Lemma wrap32_small z : 0 <= z < 2 ^ 32 -> wrap32 z = z.
Proof. intros H. unfold wrap32. now apply Z.mod_small. Qed.

Lemma sine_next_mod p :
  0 <= p < sineTableSize ->
  sine_next p = (p + IEEE.to_int phaseIncrement) mod sineTableSize.
Proof.
  unfold sine_next, sineTableSize. rewrite to_int_phaseIncrement. intros Hp.
  rewrite (wrap32_small (p + 2)) by lia.
  destruct (Z.leb_spec 100 (p + 2)) as [Hge | Hlt].
  - rewrite wrap32_small by lia.
    apply Z.mod_unique with (q := 1); lia.
  - symmetry. apply Z.mod_small. lia.
Qed.

Lemma sine_next_range p :
  0 <= p < sineTableSize -> 0 <= sine_next p < sineTableSize.
Proof.
  intros Hp. rewrite sine_next_mod by assumption.
  apply Z.mod_pos_bound. reflexivity.
Qed.

(** ** One call of [modulate] *)

Section ModulateCases.

Variable b : Build.
Variable libm_sin : float -> float.

Lemma modulate_idle adc s :
  isPlaying s = false \/ audioFile s = None ->
  modulate b libm_sin adc s
  = (fst (fallback b libm_sin adc s),
     [LedcWrite PWM_PIN (snd (fallback b libm_sin adc s))]).
Proof.
  intros H. unfold modulate.
  destruct (fallback b libm_sin adc s) as [s' a]. cbn [fst snd].
  destruct H as [-> | ->]; [reflexivity | now destruct (isPlaying s)].
Qed.

Lemma modulate_read adc s f x :
  isPlaying s = true -> audioFile s = Some f ->
  nth_error (content f) (position f) = Some x ->
  modulate b libm_sin adc s
  = (set_audioFile
       (Some {| content := content f; position := S (position f) |}) s,
     [FileRead (byte_value x); LedcWrite PWM_PIN (byte_value x)]).
Proof.
  intros Hp Hf Hx. unfold modulate. rewrite Hp, Hf.
  assert (Hlt : (position f < length (content f))%nat).
  { apply nth_error_Some. congruence. }
  unfold available, read.
  destruct (Nat.ltb_spec 0 (length (content f) - position f)); [| lia].
  now rewrite Hx.
Qed.

Lemma modulate_end adc s f :
  isPlaying s = true -> audioFile s = Some f ->
  nth_error (content f) (position f) = None ->
  modulate b libm_sin adc s
  = (set_isPlaying false (set_audioFile None s),
     [FileClose] ++ led b LED_BRIGHTNESS_READY
       ++ [SerialPrintln PlaybackFinished; LedcWrite PWM_PIN 0]).
Proof.
  intros Hp Hf Hx. unfold modulate. rewrite Hp, Hf.
  apply nth_error_None in Hx. unfold available.
  destruct (Nat.ltb_spec 0 (length (content f) - position f)); [lia | reflexivity].
Qed.

Lemma fallback_playback adc s :
  isPlaying (fst (fallback b libm_sin adc s)) = isPlaying s
  /\ audioFile (fst (fallback b libm_sin adc s)) = audioFile s.
Proof.
  unfold fallback.
  destruct (TEST_MODE_DC b), (TEST_MODE_SINE b), (ENABLE_LIVE_INPUT b);
    split; reflexivity.
Qed.

Lemma fallback_phase adc s :
  0 <= sinePhase s < sineTableSize ->
  0 <= sinePhase (fst (fallback b libm_sin adc s)) < sineTableSize.
Proof.
  intros H. unfold fallback.
  destruct (TEST_MODE_DC b), (TEST_MODE_SINE b), (ENABLE_LIVE_INPUT b);
    cbn [fst sinePhase set_sinePhase]; auto using sine_next_range.
Qed.

End ModulateCases.

(** ** Runs of [modulate] *)

Lemma skipn_nth_error {A} (l : list A) : forall n x,
  nth_error l n = Some x -> skipn n l = x :: skipn (S n) l.
Proof.
  induction l as [| a l IH]; intros [| n] x H; cbn in H; try discriminate.
  - now inversion H.
  - cbn [skipn]. rewrite (IH n x H). reflexivity.
Qed.

Section Runs.

Variable b : Build.
Variable libm_sin : float -> float.

Lemma run_cons c cs s :
  run b libm_sin (c :: cs) s
  = (fst (run b libm_sin cs (fst (step b libm_sin c s))),
     snd (step b libm_sin c s)
       ++ snd (run b libm_sin cs (fst (step b libm_sin c s)))).
Proof.
  cbn [run]. destruct (step b libm_sin c s) as [s1 o1].
  cbn [fst snd]. now destruct (run b libm_sin cs s1).
Qed.

(** While bytes remain, each call reads one byte and writes it to the
    carrier pin. *)
Lemma run_modulate_reads : forall adcs s f,
  isPlaying s = true -> audioFile s = Some f ->
  (position f + length adcs <= length (content f))%nat ->
  run b libm_sin (map Modulate adcs) s
  = (set_audioFile
       (Some {| content := content f;
                position := position f + length adcs |}) s,
     flat_map
       (fun x => [FileRead (byte_value x); LedcWrite PWM_PIN (byte_value x)])
       (firstn (length adcs) (skipn (position f) (content f)))).
Proof.
  induction adcs as [| adc adcs IH]; intros s f Hp Hf Hlen.
  - cbn [map run length firstn flat_map]. rewrite Nat.add_0_r.
    destruct s as [t l g p a ph], f as [B pos]. cbn in Hf |- *. now subst a.
  - cbn [length] in Hlen |- *. cbn [map].
    destruct (nth_error (content f) (position f)) as [x |] eqn:Hx.
    2:{ apply nth_error_None in Hx. lia. }
    rewrite run_cons. cbn [step].
    rewrite (modulate_read b libm_sin adc s f x Hp Hf Hx). cbn [fst snd].
    rewrite (IH _ {| content := content f; position := S (position f) |});
      [| exact Hp | reflexivity | cbn; lia].
    cbn [content position].
    rewrite (skipn_nth_error _ _ _ Hx). cbn [firstn flat_map].
    f_equal. unfold set_audioFile. cbn. do 3 f_equal. lia.
Qed.

(** With no session, calls touch neither the file nor the serial port. *)
Lemma run_modulate_idle : forall adcs s,
  isPlaying s = false ->
  isPlaying (fst (run b libm_sin (map Modulate adcs) s)) = false
  /\ audioFile (fst (run b libm_sin (map Modulate adcs) s)) = audioFile s
  /\ file_ops (snd (run b libm_sin (map Modulate adcs) s)) = []
  /\ serial_lines (snd (run b libm_sin (map Modulate adcs) s)) = [].
Proof.
  induction adcs as [| adc adcs IH]; intros s Hp.
  - cbn. auto.
  - cbn [map]. rewrite run_cons. cbn [step fst snd].
    rewrite (modulate_idle b libm_sin adc s (or_introl Hp)). cbn [fst snd].
    destruct (fallback_playback b libm_sin adc s) as [Hp' Hf'].
    destruct (IH (fst (fallback b libm_sin adc s))) as (H1 & H2 & H3 & H4);
      [congruence |].
    rewrite H1, H2, Hf'. repeat split.
    + unfold file_ops in *. cbn [app filter is_file_op]. exact H3.
    + unfold serial_lines in *. cbn [app flat_map serial_of]. exact H4.
Qed.

End Runs.

(** ** Replaying a file *)

(** C1.  Once a session is open on the bytes [B], the next [length B] calls
    of [modulate] each read one byte of [B], in order, and write it to the
    carrier pin, the session staying active; the call after them closes the
    file, clears [isPlaying], prints the one "finished" line and writes the
    silence value 0; every later call touches neither the file (no read, no
    second close) nor the serial port. *)
Theorem playback_replays_file
  (b : Build) (libm_sin : float -> float) (B : list Byte.byte) (s : State)
  (adcs : list Z) (adc : Z) (later : list Z) :
  isPlaying s = true ->
  audioFile s = Some {| content := B; position := 0 |} ->
  length adcs = length B ->
  let r1 := run b libm_sin (map Modulate adcs) s in
  let r2 := modulate b libm_sin adc (fst r1) in
  let r3 := run b libm_sin (map Modulate later) (fst r2) in
  snd r1
  = flat_map
      (fun x => [FileRead (byte_value x); LedcWrite PWM_PIN (byte_value x)]) B
  /\ pwm_writes (snd r1) = map byte_value B
  /\ (forall k, (k <= length B)%nat ->
        isPlaying (fst (run b libm_sin (map Modulate (firstn k adcs)) s)) = true)
  /\ snd r2
     = [FileClose] ++ led b LED_BRIGHTNESS_READY
         ++ [SerialPrintln PlaybackFinished; LedcWrite PWM_PIN 0]
  /\ pwm_writes (snd r2) = [0]
  /\ isPlaying (fst r2) = false
  /\ audioFile (fst r2) = None
  /\ isPlaying (fst r3) = false
  /\ audioFile (fst r3) = None
  /\ file_ops (snd r3) = []
  /\ serial_lines (snd r3) = [].
Proof.
  intros Hp Hf Hlen r1 r2 r3.
  pose (f0 := {| content := B; position := 0 |}).
  assert (E1 : r1
    = (set_audioFile (Some {| content := B; position := length B |}) s,
       flat_map
         (fun x => [FileRead (byte_value x); LedcWrite PWM_PIN (byte_value x)]) B)).
  { unfold r1. rewrite (run_modulate_reads b libm_sin adcs s f0 Hp Hf);
      cbn [f0 content position]; [| lia].
    rewrite Hlen. cbn [skipn Nat.add]. now rewrite firstn_all. }
  assert (E2 : r2
    = (set_isPlaying false (set_audioFile None (fst r1)),
       [FileClose] ++ led b LED_BRIGHTNESS_READY
         ++ [SerialPrintln PlaybackFinished; LedcWrite PWM_PIN 0])).
  { unfold r2. rewrite E1. cbn [fst].
    apply modulate_end with (f := {| content := B; position := length B |}).
    - exact Hp.
    - reflexivity.
    - cbn [content position]. apply nth_error_None. lia. }
  destruct (run_modulate_idle b libm_sin later (fst r2)) as (H1 & H2 & H3 & H4).
  { rewrite E2. reflexivity. }
  fold r3 in H1, H2, H3, H4.
  split; [now rewrite E1 |].
  split.
  { rewrite E1. cbn [snd]. clear. induction B as [| x B IH]; [reflexivity |].
    cbn [flat_map map app]. unfold pwm_writes in *. cbn [flat_map pwm_of app].
    rewrite Z.eqb_refl. cbn [app]. now rewrite IH. }
  split.
  { intros k Hk.
    rewrite (run_modulate_reads b libm_sin (firstn k adcs) s f0 Hp Hf).
    - cbn [fst]. exact Hp.
    - cbn [f0 content position]. rewrite length_firstn. lia. }
  split; [now rewrite E2 |].
  split.
  { rewrite E2. cbn [snd]. unfold pwm_writes, led.
    destruct (ENABLE_STATUS_LED b); reflexivity. }
  split; [now rewrite E2 |].
  split; [now rewrite E2 |].
  split; [exact H1 |].
  split; [rewrite H2; now rewrite E2 |].
  split; assumption.
Qed.

Lemma playback_replays_file_witness :
  let s := playing three_bytes 0 in
  let r1 := run sketch_build bhaskara_sin (map Modulate [0; 0; 0]) s in
  let r2 := modulate sketch_build bhaskara_sin 0 (fst r1) in
  let r3 := run sketch_build bhaskara_sin (map Modulate [0; 0]) (fst r2) in
  pwm_writes (snd r1) = [10; 200; 0]
  /\ pwm_writes (snd r2) = [0]
  /\ serial_lines (snd r2) = [PlaybackFinished]
  /\ file_ops (snd r3) = [].
Proof.
  pose proof (playback_replays_file sketch_build bhaskara_sin three_bytes
                (playing three_bytes 0) [0; 0; 0] 0 [0; 0]
                eq_refl eq_refl eq_refl) as H.
  cbv zeta in H. destruct H as (_ & H2 & _ & H4 & H5 & _ & _ & _ & _ & H10 & _).
  cbv zeta. split; [exact H2 |]. split; [exact H5 |]. split; [| exact H10].
  rewrite H4. reflexivity.
Defined.

(** ** Priority of the file over the fallback source *)

(** C2.  On every call of [modulate] made while a session is active, the
    value written to the carrier pin is the next byte of the open file (the
    silence value 0 on the call that finds the file exhausted), whatever
    the build switches, the library and the ADC reading are; and the call
    is never the fallback branch's single write. *)
Theorem file_preempts_fallback (s : State) (f : OpenFile) :
  isPlaying s = true ->
  audioFile s = Some f ->
  forall (b : Build) (libm_sin : float -> float) (adc : Z),
    pwm_writes (snd (modulate b libm_sin adc s))
    = [match nth_error (content f) (position f) with
       | Some x => byte_value x
       | None => 0
       end]
    /\ snd (modulate b libm_sin adc s)
       <> [LedcWrite PWM_PIN (snd (fallback b libm_sin adc s))].
Proof.
  intros Hp Hf b libm_sin adc.
  destruct (nth_error (content f) (position f)) as [x |] eqn:Hx.
  - rewrite (modulate_read b libm_sin adc s f x Hp Hf Hx). cbn [snd].
    split; [reflexivity | discriminate].
  - rewrite (modulate_end b libm_sin adc s f Hp Hf Hx). cbn [snd].
    unfold led. destruct (ENABLE_STATUS_LED b); split;
      solve [reflexivity | discriminate].
Qed.

Lemma file_preempts_fallback_witness :
  pwm_writes (snd (modulate sketch_build bhaskara_sin 0 (playing three_bytes 1)))
  = [200].
Proof.
  exact (proj1 (file_preempts_fallback (playing three_bytes 1)
                  {| content := three_bytes; position := 1 |}
                  eq_refl eq_refl sketch_build bhaskara_sin 0)).
Defined.

(** ** One session at a time *)

Lemma startPlayback_consistent b fs s :
  consistent s -> isPlaying s = false ->
  consistent (fst (startPlayback b fs s)).
Proof.
  intros Hc Hp. unfold startPlayback, SPIFFS_exists, SPIFFS_open.
  destruct s as [t l g p a ph]. unfold consistent in *. cbn in Hp, Hc |- *.
  subst p. destruct (audio_raw fs) as [d |], (open_ok fs); cbn; auto.
Qed.

Lemma checkTrigger_while_playing b pin m1 m2 fs s :
  isPlaying s = true ->
  snd (checkTrigger b pin m1 m2 fs s) = []
  /\ isPlaying (fst (checkTrigger b pin m1 m2 fs s)) = true
  /\ audioFile (fst (checkTrigger b pin m1 m2 fs s)) = audioFile s
  /\ sinePhase (fst (checkTrigger b pin m1 m2 fs s)) = sinePhase s.
Proof.
  intros Hp. unfold checkTrigger.
  destruct s as [t l g p a ph]. cbn in Hp. subst p. cbn.
  destruct (xorb (negb pin) l); cbn;
    match goal with |- context [debounceDelay <? ?d] =>
      destruct (debounceDelay <? d) end; cbn;
    destruct (xorb (negb pin) g); cbn; rewrite ?andb_false_r; cbn; auto.
Qed.

Lemma checkTrigger_consistent b pin m1 m2 fs s :
  consistent s -> consistent (fst (checkTrigger b pin m1 m2 fs s)).
Proof.
  intros Hc. destruct (isPlaying s) eqn:Hp.
  - destruct (checkTrigger_while_playing b pin m1 m2 fs s Hp) as (_ & H1 & H2 & _).
    unfold consistent in *. rewrite H2. destruct (audioFile s); congruence.
  - unfold checkTrigger.
    set (s1 := if xorb (negb pin) (lastTriggerState s)
               then set_lastTriggerTime m1 s else s).
    assert (Hc1 : consistent s1 /\ isPlaying s1 = false).
    { unfold s1. destruct (xorb (negb pin) (lastTriggerState s)); auto. }
    destruct Hc1 as [Hc1 Hp1].
    destruct (debounceDelay <? wrap32 (m2 - lastTriggerTime s1));
      [| exact Hc1].
    destruct (xorb (negb pin) (triggerState s1)); [| exact Hc1].
    destruct (triggerState (set_triggerState (negb pin) s1)
              && negb (isPlaying (set_triggerState (negb pin) s1))).
    + pose proof (startPlayback_consistent b fs
                    (set_triggerState (negb pin) s1) Hc1 Hp1) as H.
      destruct (startPlayback b fs (set_triggerState (negb pin) s1)).
      exact H.
    + exact Hc1.
Qed.

Lemma modulate_consistent b libm_sin adc s :
  consistent s -> consistent (fst (modulate b libm_sin adc s)).
Proof.
  intros Hc. unfold consistent in Hc.
  destruct (audioFile s) as [f |] eqn:Hf.
  - destruct (nth_error (content f) (position f)) as [x |] eqn:Hx.
    + rewrite (modulate_read b libm_sin adc s f x Hc Hf Hx). exact Hc.
    + rewrite (modulate_end b libm_sin adc s f Hc Hf Hx). reflexivity.
  - rewrite (modulate_idle b libm_sin adc s (or_intror Hf)). cbn [fst].
    destruct (fallback_playback b libm_sin adc s) as [H1 H2].
    unfold consistent. now rewrite H2, Hf, H1.
Qed.

Lemma run_consistent b libm_sin cs : forall s,
  consistent s -> consistent (fst (run b libm_sin cs s)).
Proof.
  induction cs as [| c cs IH]; intros s Hc; [exact Hc |].
  rewrite run_cons. cbn [fst]. apply IH.
  destruct c; cbn [step];
    [now apply modulate_consistent | now apply checkTrigger_consistent].
Qed.

Lemma modulate_opens_nothing b libm_sin adc s v :
  ~ In (SpiffsOpen v) (snd (modulate b libm_sin adc s)).
Proof.
  unfold modulate, read, led.
  destruct (fallback b libm_sin adc s) as [s' a].
  destruct (isPlaying s), (audioFile s) as [f |];
    try (cbn; intuition discriminate).
  destruct (0 <? available f)%nat.
  - destruct (nth_error (content f) (position f)); cbn; intuition discriminate.
  - destruct (ENABLE_STATUS_LED b); cbn; intuition discriminate.
Qed.

(** The claim as C3 words it fails for [startPlayback] itself: called while a
    session is active and two bytes into the file, it opens the resource
    again and the session restarts from byte 0. *)
Lemma start_while_playing_reopens :
  let fs := {| audio_raw := Some three_bytes; open_ok := true |} in
  let s := playing three_bytes 2 in
  let r := startPlayback sketch_build fs s in
  isPlaying s = true
  /\ audioFile (fst r) <> audioFile s
  /\ In (SpiffsOpen true) (snd r).
Proof.
  cbv zeta. split; [reflexivity |]. split; [| now left].
  cbn. intros H. discriminate H.
Qed.

(** C3 (amended).  While a session is active, a poll of the trigger, a
    confirmed rising edge included, calls nothing and leaves the playback
    state as it is; [isPlaying] goes from true to false only in the call of
    [modulate] that finds the file exhausted; in every run from boot a
    resource is opened only when no session is active and no file is open,
    and [isPlaying] always says whether [audioFile] is open. *)
Theorem trigger_ignored_while_playing (b : Build) (libm_sin : float -> float) :
  (forall s pin m1 m2 fs,
      isPlaying s = true ->
      snd (checkTrigger b pin m1 m2 fs s) = []
      /\ isPlaying (fst (checkTrigger b pin m1 m2 fs s)) = true
      /\ audioFile (fst (checkTrigger b pin m1 m2 fs s)) = audioFile s)
  /\ (forall s c,
         isPlaying s = true ->
         isPlaying (fst (step b libm_sin c s)) = false ->
         exists adc f,
           c = Modulate adc /\ audioFile s = Some f /\ available f = 0%nat)
  /\ (forall cs c v,
         In (SpiffsOpen v)
            (snd (step b libm_sin c (fst (run b libm_sin cs initial)))) ->
         isPlaying (fst (run b libm_sin cs initial)) = false
         /\ audioFile (fst (run b libm_sin cs initial)) = None)
  /\ (forall cs, consistent (fst (run b libm_sin cs initial))).
Proof.
  split; [| split; [| split]].
  - intros s pin m1 m2 fs Hp.
    destruct (checkTrigger_while_playing b pin m1 m2 fs s Hp) as (H1 & H2 & H3 & _).
    auto.
  - intros s [adc | pin m1 m2 fs] Hp Hq; cbn [step] in Hq.
    + destruct (audioFile s) as [f |] eqn:Hf.
      * exists adc, f. split; [reflexivity |]. split; [reflexivity |].
        unfold modulate in Hq. rewrite Hp, Hf in Hq.
        destruct (Nat.ltb_spec 0 (available f)) as [Hlt | Hge]; [| lia].
        destruct (read f). cbn in Hq. congruence.
      * rewrite (modulate_idle b libm_sin adc s (or_intror Hf)) in Hq.
        cbn [fst] in Hq.
        destruct (fallback_playback b libm_sin adc s) as [H1 _]. congruence.
    + destruct (checkTrigger_while_playing b pin m1 m2 fs s Hp) as (_ & H & _).
      congruence.
  - intros cs c v Hin.
    pose proof (run_consistent b libm_sin cs initial eq_refl) as Hc.
    destruct (isPlaying (fst (run b libm_sin cs initial))) eqn:Hp.
    + exfalso. destruct c as [adc | pin m1 m2 fs]; cbn [step] in Hin.
      * exact (modulate_opens_nothing _ _ _ _ _ Hin).
      * destruct (checkTrigger_while_playing b pin m1 m2 fs _ Hp) as (H & _).
        rewrite H in Hin. exact Hin.
    + split; [reflexivity |]. unfold consistent in Hc.
      destruct (audioFile (fst (run b libm_sin cs initial))); congruence.
  - intros cs. apply run_consistent. reflexivity.
Qed.

Lemma trigger_ignored_while_playing_witness :
  snd (checkTrigger sketch_build false 1000 1000
         {| audio_raw := Some three_bytes; open_ok := true |}
         (playing three_bytes 1)) = []
  /\ audioFile (fst (checkTrigger sketch_build false 1000 1000
                       {| audio_raw := Some three_bytes; open_ok := true |}
                       (playing three_bytes 1)))
     = Some {| content := three_bytes; position := 1 |}.
Proof.
  destruct (proj1 (trigger_ignored_while_playing sketch_build bhaskara_sin)
              (playing three_bytes 1) false 1000 1000
              {| audio_raw := Some three_bytes; open_ok := true |} eq_refl)
    as (H1 & _ & H3).
  split; [exact H1 | exact H3].
Defined.

(** ** Starting a session *)

Lemma startPlayback_phase b fs s :
  sinePhase (fst (startPlayback b fs s)) = sinePhase s.
Proof.
  unfold startPlayback, SPIFFS_exists, SPIFFS_open.
  destruct (audio_raw fs), (open_ok fs); reflexivity.
Qed.

(** C7.  From a state with no session: when the resource is missing or
    cannot be opened, [startPlayback] changes nothing (so [isPlaying] stays
    false), prints the "not found" or the "failed to open" line, and the
    next call of [modulate] is the fallback branch on the unchanged state;
    when the resource holds [B] and opens, the session is active at byte 0
    and the one line printed carries the size [length B] and the duration
    [(float)length B / 40000.0]. *)
Theorem startPlayback_outcome (b : Build) (fs : Spiffs) (s : State) :
  isPlaying s = false ->
  audioFile s = None ->
  (audio_raw fs = None \/ open_ok fs = false ->
   fst (startPlayback b fs s) = s
   /\ isPlaying (fst (startPlayback b fs s)) = false
   /\ (snd (startPlayback b fs s) = [SerialPrintln AudioFileNotFound]
       \/ snd (startPlayback b fs s)
          = [SpiffsOpen false; SerialPrintln FailedToOpen])
   /\ forall libm_sin adc,
       modulate b libm_sin adc (fst (startPlayback b fs s))
       = (fst (fallback b libm_sin adc s),
          [LedcWrite PWM_PIN (snd (fallback b libm_sin adc s))]))
  /\ (forall B,
         audio_raw fs = Some B -> open_ok fs = true ->
         isPlaying (fst (startPlayback b fs s)) = true
         /\ audioFile (fst (startPlayback b fs s))
            = Some {| content := B; position := 0 |}
         /\ exists u,
             serial_lines (snd (startPlayback b fs s))
             = [StartingPlayback u (Z.of_nat (length B))
                  (IEEE.to_float32
                     (IEEE.to_float32 (IEEE.of_unsigned (Z.of_nat (length B)))
                        / 40000)%float)]).
Proof.
  intros Hp Hf. split.
  - intros Hfail.
    assert (E : startPlayback b fs s = (s, [SerialPrintln AudioFileNotFound])
                \/ startPlayback b fs s
                   = (s, [SpiffsOpen false; SerialPrintln FailedToOpen])).
    { unfold startPlayback, SPIFFS_exists, SPIFFS_open.
      destruct s as [t l g p a ph]. cbn in Hp, Hf. subst p a.
      destruct (audio_raw fs) as [d |]; [| now left].
      destruct Hfail as [H | H]; [discriminate |]. rewrite H. now right. }
    assert (Es : fst (startPlayback b fs s) = s) by (destruct E as [-> | ->]; reflexivity).
    rewrite Es. repeat split; auto.
    + destruct E as [-> | ->]; auto.
    + intros libm_sin adc. apply modulate_idle. now left.
  - intros B HB Hok. unfold startPlayback, SPIFFS_exists, SPIFFS_open.
    rewrite HB, Hok. cbn [audioFile set_audioFile fst snd].
    split; [reflexivity |]. split; [reflexivity |].
    unfold led, starting_line, size, durationSeconds. cbn [content].
    destruct (ENABLE_STATUS_LED b);
      destruct (1048576 <=? Z.of_nat (length B));
      [eexists; reflexivity | | eexists; reflexivity |];
      destruct (1024 <=? Z.of_nat (length B)); eexists; reflexivity.
Qed.

Lemma startPlayback_outcome_witness :
  fst (startPlayback sketch_build {| audio_raw := None; open_ok := true |} initial)
  = initial
  /\ audioFile (fst (startPlayback sketch_build
                       {| audio_raw := Some three_bytes; open_ok := true |}
                       initial))
     = Some {| content := three_bytes; position := 0 |}.
Proof.
  split.
  - exact (proj1 (proj1 (startPlayback_outcome sketch_build
                           {| audio_raw := None; open_ok := true |} initial
                           eq_refl eq_refl) (or_introl eq_refl))).
  - exact (proj1 (proj2 (proj2 (startPlayback_outcome sketch_build
                           {| audio_raw := Some three_bytes; open_ok := true |}
                           initial eq_refl eq_refl)
                         three_bytes eq_refl eq_refl))).
Defined.

(** ** Live input *)

(** C8 (evaluation of the code).  In the live-input build, with no session,
    the value written to the carrier pin for the ADC reading [v] is [v / 4]:
    1023 for the 12-bit reading 4095, beyond the 8-bit duty range; it lies
    in 0..255 exactly for the readings below 1024. *)
Theorem live_input_exceeds_8_bits (libm_sin : float -> float) :
  (forall v, pwm_writes (snd (modulate live_build libm_sin v initial))
             = [Z.quot v 4])
  /\ pwm_writes (snd (modulate live_build libm_sin 4095 initial)) = [1023]
  /\ (forall v, 0 <= v <= 4095 -> (0 <= Z.quot v 4 <= 255 <-> v <= 1023)).
Proof.
  split; [intros v; reflexivity |]. split; [reflexivity |].
  intros v Hv. rewrite Z.quot_div_nonneg by lia.
  split; intros H.
  - destruct (Z.le_gt_cases v 1023) as [Hle | Hgt]; [exact Hle |].
    assert (256 <= v / 4) by (apply Z.div_le_lower_bound; lia). lia.
  - split; [apply Z.div_pos; lia |].
    assert (v / 4 < 256) by (apply Z.div_lt_upper_bound; lia). lia.
Qed.

Lemma live_input_exceeds_8_bits_witness :
  0 <= Z.quot 1000 4 <= 255 /\ ~ 0 <= Z.quot 4095 4 <= 255.
Proof.
  pose proof (proj2 (proj2 (live_input_exceeds_8_bits bhaskara_sin))) as H.
  split.
  - apply (H 1000); lia.
  - intros H4. apply (H 4095) in H4; lia.
Defined.

(** ** Serial output of the callback *)

(** The claim as C9 words it fails: whatever the library's [sin] is, the call
    of [modulate] that finds the file exhausted prints on [Serial]. *)
Lemma modulate_prints_at_end_of_stream :
  ~ exists libm_sin : float -> float,
      serial_lines (snd (modulate sketch_build libm_sin 0 (playing three_bytes 3)))
      = [].
Proof.
  intros [libm_sin H]. cbn in H. discriminate H.
Qed.

Lemma startPlayback_lines b fs s :
  ~ In PlaybackFinished (serial_lines (snd (startPlayback b fs s))).
Proof.
  unfold startPlayback, SPIFFS_exists, SPIFFS_open, led, starting_line.
  destruct (audio_raw fs) as [d |]; [| cbn; intuition discriminate].
  destruct (open_ok fs); [| cbn; intuition discriminate].
  cbn [audioFile set_audioFile snd].
  destruct (ENABLE_STATUS_LED b),
    (1048576 <=? size {| content := d; position := 0 |}),
    (1024 <=? size {| content := d; position := 0 |});
    cbn; intuition discriminate.
Qed.

Lemma checkTrigger_lines b pin m1 m2 fs s :
  ~ In PlaybackFinished (serial_lines (snd (checkTrigger b pin m1 m2 fs s))).
Proof.
  unfold checkTrigger.
  set (s1 := if xorb (negb pin) (lastTriggerState s)
             then set_lastTriggerTime m1 s else s).
  destruct (debounceDelay <? wrap32 (m2 - lastTriggerTime s1)); [| now cbn].
  destruct (xorb (negb pin) (triggerState s1)); [| now cbn].
  destruct (triggerState (set_triggerState (negb pin) s1)
            && negb (isPlaying (set_triggerState (negb pin) s1)));
    [| now cbn].
  pose proof (startPlayback_lines b fs (set_triggerState (negb pin) s1)) as H.
  destruct (startPlayback b fs (set_triggerState (negb pin) s1)).
  exact H.
Qed.

(** C9 (amended).  A call of [modulate] prints nothing on [Serial], except
    the call that finds the file of the active session exhausted: that call
    prints the "finished" line itself, once.  [checkTrigger], the only work
    of the main loop, never prints that line. *)
Theorem modulate_prints_only_at_end
  (b : Build) (libm_sin : float -> float) (adc : Z) (s : State) :
  (serial_lines (snd (modulate b libm_sin adc s)) = [PlaybackFinished]
   \/ serial_lines (snd (modulate b libm_sin adc s)) = [])
  /\ (serial_lines (snd (modulate b libm_sin adc s)) = [PlaybackFinished]
      <-> isPlaying s = true
          /\ exists f, audioFile s = Some f /\ available f = 0%nat)
  /\ (forall pin m1 m2 fs,
         ~ In PlaybackFinished
             (serial_lines (snd (checkTrigger b pin m1 m2 fs s)))).
Proof.
  assert (Hidle : isPlaying s = false \/ audioFile s = None ->
                  serial_lines (snd (modulate b libm_sin adc s)) = []).
  { intros H. rewrite (modulate_idle b libm_sin adc s H). reflexivity. }
  assert (Hend : forall l, serial_lines
            ([FileClose] ++ led b LED_BRIGHTNESS_READY
               ++ [SerialPrintln PlaybackFinished; LedcWrite PWM_PIN l])
          = [PlaybackFinished]).
  { intros l. unfold led. destruct (ENABLE_STATUS_LED b); reflexivity. }
  split; [| split].
  - destruct (isPlaying s) eqn:Hp; [| right; auto].
    destruct (audioFile s) as [f |] eqn:Hf; [| right; auto].
    destruct (nth_error (content f) (position f)) as [x |] eqn:Hx.
    + right. now rewrite (modulate_read b libm_sin adc s f x Hp Hf Hx).
    + left. rewrite (modulate_end b libm_sin adc s f Hp Hf Hx). apply Hend.
  - split.
    + intros H.
      destruct (isPlaying s) eqn:Hp; [| rewrite Hidle in H; auto; discriminate].
      destruct (audioFile s) as [f |] eqn:Hf;
        [| rewrite Hidle in H; auto; discriminate].
      split; [reflexivity |]. exists f. split; [reflexivity |].
      destruct (nth_error (content f) (position f)) as [x |] eqn:Hx.
      * rewrite (modulate_read b libm_sin adc s f x Hp Hf Hx) in H. discriminate.
      * apply nth_error_None in Hx. unfold available. lia.
    + intros (Hp & f & Hf & Hav).
      rewrite (modulate_end b libm_sin adc s f Hp Hf); [apply Hend |].
      apply nth_error_None. unfold available in Hav. lia.
  - intros pin m1 m2 fs. apply checkTrigger_lines.
Qed.

Lemma modulate_prints_only_at_end_witness :
  serial_lines (snd (modulate sketch_build bhaskara_sin 0 (playing three_bytes 3)))
  = [PlaybackFinished].
Proof.
  apply (proj1 (proj2 (modulate_prints_only_at_end sketch_build bhaskara_sin 0
                         (playing three_bytes 3)))).
  split; [reflexivity |].
  exists {| content := three_bytes; position := 3 |}. split; reflexivity.
Defined.

(** ** The phase stays inside the table *)

Lemma checkTrigger_phase b pin m1 m2 fs s :
  sinePhase (fst (checkTrigger b pin m1 m2 fs s)) = sinePhase s.
Proof.
  unfold checkTrigger.
  set (s1 := if xorb (negb pin) (lastTriggerState s)
             then set_lastTriggerTime m1 s else s).
  assert (H1 : sinePhase s1 = sinePhase s)
    by (unfold s1; now destruct (xorb (negb pin) (lastTriggerState s))).
  destruct (debounceDelay <? wrap32 (m2 - lastTriggerTime s1)); [| exact H1].
  destruct (xorb (negb pin) (triggerState s1)); [| exact H1].
  destruct (triggerState (set_triggerState (negb pin) s1)
            && negb (isPlaying (set_triggerState (negb pin) s1)));
    [| exact H1].
  pose proof (startPlayback_phase b fs (set_triggerState (negb pin) s1)) as H.
  destruct (startPlayback b fs (set_triggerState (negb pin) s1)).
  cbn in H |- *. congruence.
Qed.

Lemma modulate_phase b libm_sin adc s :
  0 <= sinePhase s < sineTableSize ->
  0 <= sinePhase (fst (modulate b libm_sin adc s)) < sineTableSize.
Proof.
  intros H. unfold modulate.
  pose proof (fallback_phase b libm_sin adc s H) as Hfb.
  destruct (fallback b libm_sin adc s) as [s' a].
  destruct (isPlaying s), (audioFile s) as [f |]; try exact Hfb.
  destruct (0 <? available f)%nat; [destruct (read f) |]; exact H.
Qed.

Lemma run_phase b libm_sin cs : forall s,
  0 <= sinePhase s < sineTableSize ->
  0 <= sinePhase (fst (run b libm_sin cs s)) < sineTableSize.
Proof.
  induction cs as [| c cs IH]; intros s H; [exact H |].
  rewrite run_cons. cbn [fst]. apply IH.
  destruct c; cbn [step];
    [now apply modulate_phase | now rewrite checkTrigger_phase].
Qed.

(** C10.  The truncated increment [(int)phaseIncrement] is smaller than
    [sineTableSize]; in every state a run from boot reaches, whatever the
    build, [0 <= sinePhase < sineTableSize], and the bound holds again after
    the next call of [modulate]: the one conditional subtraction suffices. *)
Theorem sinePhase_in_table
  (b : Build) (libm_sin : float -> float) (cs : list Call) (adc : Z) :
  0 <= IEEE.to_int phaseIncrement < sineTableSize
  /\ 0 <= sinePhase (fst (run b libm_sin cs initial)) < sineTableSize
  /\ 0 <= sinePhase (fst (modulate b libm_sin adc
                            (fst (run b libm_sin cs initial))))
     < sineTableSize.
Proof.
  assert (H0 : 0 <= sinePhase initial < sineTableSize) by (cbn; unfold sineTableSize; lia).
  split; [rewrite to_int_phaseIncrement; unfold sineTableSize; lia |].
  split; [now apply run_phase |].
  apply modulate_phase. now apply run_phase.
Qed.

(** ** Debounce *)

Lemma startPlayback_trigger b fs s :
  lastTriggerTime (fst (startPlayback b fs s)) = lastTriggerTime s
  /\ lastTriggerState (fst (startPlayback b fs s)) = lastTriggerState s
  /\ triggerState (fst (startPlayback b fs s)) = triggerState s.
Proof.
  unfold startPlayback, SPIFFS_exists, SPIFFS_open.
  destruct (audio_raw fs), (open_ok fs); cbn; auto.
Qed.

(** What [checkTrigger] does to the three debounce variables. *)
Lemma checkTrigger_trigger b pin m1 m2 fs s :
  let reading := negb pin in
  let t := if xorb reading (lastTriggerState s) then m1 else lastTriggerTime s in
  lastTriggerState (fst (checkTrigger b pin m1 m2 fs s)) = reading
  /\ lastTriggerTime (fst (checkTrigger b pin m1 m2 fs s)) = t
  /\ triggerState (fst (checkTrigger b pin m1 m2 fs s))
     = if (debounceDelay <? wrap32 (m2 - t)) && xorb reading (triggerState s)
       then reading else triggerState s.
Proof.
  cbv zeta. unfold checkTrigger.
  set (s1 := if xorb (negb pin) (lastTriggerState s)
             then set_lastTriggerTime m1 s else s).
  assert (H1 : lastTriggerTime s1
               = (if xorb (negb pin) (lastTriggerState s)
                  then m1 else lastTriggerTime s)
               /\ triggerState s1 = triggerState s).
  { unfold s1. destruct (xorb (negb pin) (lastTriggerState s)); auto. }
  destruct H1 as [Ht Hg]. rewrite <- Ht, <- Hg.
  destruct (debounceDelay <? wrap32 (m2 - lastTriggerTime s1)); cbn [andb];
    [| now cbn].
  destruct (xorb (negb pin) (triggerState s1)); [| now cbn].
  destruct (triggerState (set_triggerState (negb pin) s1)
            && negb (isPlaying (set_triggerState (negb pin) s1)));
    [| now cbn].
  destruct (startPlayback_trigger b (fs) (set_triggerState (negb pin) s1))
    as (E1 & E2 & E3).
  destruct (startPlayback b fs (set_triggerState (negb pin) s1)) as [s2 o].
  cbn in E1, E2, E3 |- *. auto.
Qed.

Lemma wrap32_sub a c : wrap32 (wrap32 a - wrap32 c) = wrap32 (a - c).
Proof. unfold wrap32. symmetry. apply Zminus_mod. Qed.

Lemma poll_trigger b p s :
  let reading := negb (pin_level p) in
  lastTriggerState (poll b p s) = reading
  /\ lastTriggerTime (poll b p s)
     = (if xorb reading (lastTriggerState s)
        then millis (clock1 p) else lastTriggerTime s)
  /\ triggerState (poll b p s)
     = if (debounceDelay
           <? wrap32 (millis (clock2 p)
                      - (if xorb reading (lastTriggerState s)
                         then millis (clock1 p) else lastTriggerTime s)))
          && xorb reading (triggerState s)
       then reading else triggerState s.
Proof. apply checkTrigger_trigger. Qed.

Lemma chronological_later t ps :
  chronological t ps -> forall q, In q ps -> t <= clock2 q.
Proof.
  revert t. induction ps as [| p ps IH]; intros t Hc q Hq; [destruct Hq |].
  destruct Hc as (H1 & H2 & H3). destruct Hq as [<- | Hq]; [lia |].
  specialize (IH _ H3 q Hq). lia.
Qed.

(** Inside the window that the last raw change opened at time [t0], no
    poll moves the confirmed level. *)
Lemma quiet_in_window b (w : Z) : forall ps s t0 t,
  lastTriggerTime s = millis t0 ->
  t0 <= t -> w <= t0 + debounceDelay ->
  chronological t ps ->
  (forall q, In q ps -> clock2 q <= w) ->
  transitions (triggerState s) (confirmed_levels b ps s) = 0%nat.
Proof.
  induction ps as [| p ps IH]; intros s t0 t Hl Ht Hw Hc Hin; [reflexivity |].
  destruct Hc as (H1 & H2 & H3).
  assert (Hp : clock2 p <= w) by (apply Hin; now left).
  destruct (poll_trigger b p s) as (_ & E2 & E3). cbv zeta in E2, E3.
  cbn [confirmed_levels transitions].
  set (t1 := if xorb (negb (pin_level p)) (lastTriggerState s)
             then clock1 p else t0).
  assert (Et : lastTriggerTime (poll b p s) = millis t1).
  { rewrite E2. unfold t1.
    destruct (xorb (negb (pin_level p)) (lastTriggerState s)); auto. }
  assert (Hb : t0 <= t1 <= clock2 p).
  { unfold t1. destruct (xorb (negb (pin_level p)) (lastTriggerState s)); lia. }
  assert (Eg : triggerState (poll b p s) = triggerState s).
  { rewrite E3. rewrite <- E2, Et. unfold millis. rewrite wrap32_sub.
    unfold debounceDelay in *. rewrite wrap32_small by lia.
    destruct (Z.ltb_spec 50 (clock2 p - t1)); [lia | reflexivity]. }
  rewrite Eg, xorb_nilpotent. cbn [Nat.add]. rewrite <- Eg.
  apply (IH (poll b p s) t1 (clock2 p)); auto; try lia.
  intros q Hq. apply Hin. now right.
Qed.

(** Once the confirmed level equals the raw level, polls that keep reading
    that level leave it alone. *)
Lemma settled_stays b (r : bool) : forall ps s,
  triggerState s = r ->
  (forall q, In q ps -> pin_level q = negb r) ->
  transitions (triggerState s) (confirmed_levels b ps s) = 0%nat
  /\ last (confirmed_levels b ps s) (triggerState s) = r.
Proof.
  induction ps as [| p ps IH]; intros s Hg Hin; [now split |].
  assert (Hp : negb (pin_level p) = r).
  { rewrite (Hin p) by now left. apply negb_involutive. }
  destruct (poll_trigger b p s) as (_ & _ & E3). cbv zeta in E3.
  assert (Eg : triggerState (poll b p s) = r).
  { rewrite E3, Hp, Hg, xorb_nilpotent, andb_false_r. reflexivity. }
  cbn [confirmed_levels transitions]. rewrite Eg, Hg, xorb_nilpotent.
  destruct (IH (poll b p s) Eg) as [I1 I2].
  { intros q Hq. apply Hin. now right. }
  rewrite Eg in I1, I2. split; [exact I1 |].
  destruct ps as [| p' ps]; [reflexivity |].
  cbn [confirmed_levels] in I2 |- *.
  change (last (triggerState (poll b p' (poll b p s))
                  :: confirmed_levels b ps (poll b p' (poll b p s))) r = r).
  exact I2.
Qed.

Lemma last_cons {A} (x d : A) (l : list A) : last (x :: l) d = last l x.
Proof.
  revert x d. induction l as [| y l IH]; intros x d; [reflexivity |].
  change (last (x :: y :: l) d) with (last (y :: l) d).
  now rewrite (IH y d), (IH y x).
Qed.

Lemma last_In {A} (l : list A) : forall x d, In (last (x :: l) d) (x :: l).
Proof.
  induction l as [| y l IH]; intros x d; [now left |].
  change (last (x :: y :: l) d) with (last (y :: l) d). right. apply IH.
Qed.

Lemma chronological_last : forall rest t p,
  chronological t rest ->
  forall q, In q rest -> clock2 q <= clock2 (last rest p).
Proof.
  induction rest as [| a l IH]; intros t p Hc q Hq; [destruct Hq |].
  destruct Hc as (A1 & A2 & A3). rewrite last_cons.
  destruct Hq as [<- | Hq]; [| exact (IH (clock2 a) a A3 q Hq)].
  destruct l as [| a' l]; [cbn; lia |].
  apply (chronological_later _ _ A3). apply last_In.
Qed.

(** A raw level [r] that the polls keep reading, first seen at time [t1] and
    not yet confirmed, is confirmed once, by the first poll later than
    [debounceDelay] after [t1]. *)
Lemma pending_confirms b (r : bool) (t1 : Z) : forall ps s t,
  lastTriggerState s = r ->
  lastTriggerTime s = millis t1 ->
  triggerState s = negb r ->
  t1 <= t ->
  chronological t ps ->
  (forall q, In q ps -> pin_level q = negb r /\ clock2 q - t1 < 2 ^ 32) ->
  transitions (negb r) (confirmed_levels b ps s)
  = (if existsb (overdue t1) ps then 1 else 0)%nat
  /\ last (confirmed_levels b ps s) (negb r)
     = (if existsb (overdue t1) ps then r else negb r).
Proof.
  induction ps as [| p ps IH]; intros s t Hl Ht Hg Hle Hc Hin; [now split |].
  destruct Hc as (H1 & H2 & H3).
  destruct (Hin p (or_introl eq_refl)) as [Hpin Hlt].
  assert (Hr : negb (pin_level p) = r) by (rewrite Hpin; apply negb_involutive).
  destruct (poll_trigger b p s) as (E1 & E2 & E3). cbv zeta in E1, E2, E3.
  rewrite Hr, Hl, xorb_nilpotent in E2. rewrite Hr in E1.
  rewrite Hr, Hl, xorb_nilpotent, Ht, Hg in E3.
  unfold millis in E3. rewrite wrap32_sub, wrap32_small in E3 by lia.
  replace (xorb r (negb r)) with true in E3 by now destruct r.
  rewrite andb_true_r in E3.
  cbn [confirmed_levels transitions existsb]. rewrite last_cons.
  unfold overdue at 1 3.
  destruct (debounceDelay <? clock2 p - t1) eqn:Hd; cbn [orb].
  - destruct (settled_stays b r ps (poll b p s) E3) as [S1 S2].
    { intros q Hq. now apply Hin; right. }
    rewrite E3 in S1, S2 |- *. rewrite S1, S2.
    split; [now destruct r | reflexivity].
  - rewrite E3. rewrite xorb_nilpotent. cbn [Nat.add].
    apply (IH (poll b p s) (clock2 p) E1 (eq_trans E2 Ht) E3);
      [lia | exact H3 |].
    intros q Hq. now apply Hin; right.
Qed.

(** C4.  Let the poll [p] be the one that sees the raw level change.  If all
    the polls from [p] on, whatever levels they read, fall within
    [debounceDelay] (50 ms) of [p], the confirmed level does not move.  If
    the polls after [p] keep reading [p]'s level, that level differs from
    the confirmed one, and the last poll comes more than [debounceDelay]
    after [p] (and less than 2^32 ms), the confirmed level moves exactly
    once, to the new level. *)
Theorem debounce_window (b : Build) (s : State) (p : Poll) (rest : list Poll) :
  negb (pin_level p) <> lastTriggerState s ->
  chronological (clock1 p) (p :: rest) ->
  ((forall q, In q (p :: rest) -> clock2 q <= clock1 p + debounceDelay) ->
   transitions (triggerState s) (confirmed_levels b (p :: rest) s) = 0%nat)
  /\ ((forall q, In q rest -> pin_level q = pin_level p) ->
      negb (pin_level p) <> triggerState s ->
      debounceDelay < clock2 (last rest p) - clock1 p < 2 ^ 32 ->
      transitions (triggerState s) (confirmed_levels b (p :: rest) s) = 1%nat
      /\ last (confirmed_levels b (p :: rest) s) (triggerState s)
         = negb (pin_level p)).
Proof.
  intros Hchg Hc. destruct Hc as (_ & H2 & H3).
  destruct (poll_trigger b p s) as (E1 & E2 & E3). cbv zeta in E1, E2, E3.
  assert (Hx : xorb (negb (pin_level p)) (lastTriggerState s) = true).
  { destruct (pin_level p), (lastTriggerState s); cbn in *; congruence. }
  rewrite Hx in E2, E3. unfold millis in E3. rewrite wrap32_sub in E3.
  split.
  - intros Hin.
    assert (Hp : clock2 p <= clock1 p + debounceDelay) by (apply Hin; now left).
    unfold debounceDelay in *. rewrite wrap32_small in E3 by lia.
    destruct (Z.ltb_spec 50 (clock2 p - clock1 p)); [lia |].
    cbn [andb] in E3. cbn [confirmed_levels transitions].
    rewrite E3, xorb_nilpotent. cbn [Nat.add]. rewrite <- E3.
    apply (quiet_in_window b (clock1 p + 50) rest (poll b p s)
             (clock1 p) (clock2 p) E2);
      [lia | unfold debounceDelay; lia | exact H3 |].
    intros q Hq. apply Hin. now right.
  - intros Hsame Hneq Hlong.
    set (r := negb (pin_level p)) in *.
    assert (Hg : triggerState s = negb r).
    { destruct r, (triggerState s); cbn in *; congruence. }
    assert (Hxr : xorb r (negb r) = true) by now destruct r.
    assert (Hlast : forall q, In q rest -> clock2 q <= clock2 (last rest p))
      by exact (chronological_last rest (clock2 p) p H3).
    assert (Hall : forall q, In q rest ->
                     pin_level q = negb r /\ clock2 q - clock1 p < 2 ^ 32).
    { intros q Hq. split.
      - rewrite (Hsame q Hq). unfold r. now rewrite negb_involutive.
      - specialize (Hlast q Hq). lia. }
    assert (Hp32 : 0 <= clock2 p - clock1 p < 2 ^ 32).
    { split; [lia |]. destruct rest as [| a l]; [cbn in Hlong; lia |].
      pose proof (chronological_later _ _ H3 _ (or_introl eq_refl)).
      specialize (Hlast a (or_introl eq_refl)).
      destruct H3 as (A1 & A2 & _). lia. }
    rewrite wrap32_small in E3 by exact Hp32.
    rewrite Hg, Hxr, andb_true_r in E3.
    cbn [confirmed_levels transitions]. rewrite last_cons, Hg.
    destruct (debounceDelay <? clock2 p - clock1 p) eqn:Hd.
    + destruct (settled_stays b r rest (poll b p s) E3) as [S1 S2].
      { intros q Hq. now apply Hall. }
      rewrite E3 in S1, S2 |- *. rewrite S1, S2, xorb_comm, Hxr. now split.
    + rewrite E3, xorb_nilpotent. cbn [Nat.add].
      destruct (pending_confirms b r (clock1 p) rest (poll b p s) (clock2 p))
        as [P1 P2]; auto; try lia.
      assert (Hex : existsb (overdue (clock1 p)) rest = true).
      { apply existsb_exists. exists (last rest p). split.
        - destruct rest as [| a l]; [| apply last_In].
          cbn in Hlong. apply Z.ltb_ge in Hd. lia.
        - unfold overdue. apply Z.ltb_lt. lia. }
      rewrite Hex in P1, P2. now split.
Qed.

Lemma debounce_window_witness :
  transitions false (confirmed_levels sketch_build bouncing_press initial) = 0%nat
  /\ transitions false (confirmed_levels sketch_build held_press initial) = 1%nat.
Proof.
  split.
  - apply (proj1 (debounce_window sketch_build initial (sample_poll false 1000)
                    [sample_poll true 1010; sample_poll false 1020]
                    (fun H => Bool.diff_true_false H)
                    ltac:(cbn; lia))).
    intros q Hq. unfold debounceDelay. cbn in Hq.
    destruct Hq as [<- | [<- | [<- | []]]]; cbn; lia.
  - apply (proj2 (debounce_window sketch_build initial (sample_poll false 1000)
                    (map (sample_poll false) [1010; 1020; 1030; 1040; 1050; 1060])
                    (fun H => Bool.diff_true_false H)
                    ltac:(cbn; lia))).
    + intros q Hq. cbn in Hq.
      destruct Hq as [<- | [<- | [<- | [<- | [<- | [<- | []]]]]]]; reflexivity.
    + exact (fun H => Bool.diff_true_false H).
    + unfold debounceDelay. cbn. lia.
Defined.

(** ** The test tone *)

Lemma spec_fixedTone_0 : spec_fixedTone 0 = 128.
Proof.
  unfold spec_fixedTone, spec_round.
  replace (2 * PI * 0 / 100)%R with 0%R by (unfold Rdiv; ring).
  rewrite sin_0, Rmult_0_r, Rplus_0_l. unfold Int_part.
  rewrite <- (tech_up (/ 2) 1); [reflexivity | cbn; lra | cbn; lra].
Qed.

Lemma phase_at_range i : 0 <= phase_at i < sineTableSize.
Proof.
  induction i as [| i IH]; [cbn; unfold sineTableSize; lia |].
  change (phase_at (S i)) with (sine_next (phase_at i)).
  now apply sine_next_range.
Qed.

Lemma phase_at_mod i :
  phase_at i = (Z.of_nat i * IEEE.to_int phaseIncrement) mod sineTableSize.
Proof.
  induction i as [| i IH]; [reflexivity |].
  change (phase_at (S i)) with (sine_next (phase_at i)).
  rewrite sine_next_mod by apply (phase_at_range i).
  rewrite IH, Zplus_mod_idemp_l. f_equal. lia.
Qed.

Lemma gcd_period (d N : Z) :
  0 < N -> 0 <= N / Z.gcd d N /\ exists k, N / Z.gcd d N * d = k * N.
Proof.
  intros HN.
  pose proof (Z.gcd_nonneg d N) as Hnn.
  assert (Hnz : Z.gcd d N <> 0) by (intros H0; apply Z.gcd_eq_0_r in H0; lia).
  destruct (Z.gcd_divide_l d N) as [kd Hd].
  destruct (Z.gcd_divide_r d N) as [kN HkN].
  remember (Z.gcd d N) as g eqn:Hg. clear Hg. subst d N.
  rewrite Z.div_mul by exact Hnz. split; [nia |].
  exists kd. ring.
Qed.

(** The accumulator returns to its value after [N / gcd(step, N)] calls,
    [step] being the whole number it adds per call. *)
Lemma phase_at_period i :
  phase_at
    (i + Z.to_nat (sineTableSize
                   / Z.gcd (IEEE.to_int phaseIncrement) sineTableSize))
  = phase_at i.
Proof.
  rewrite !phase_at_mod.
  destruct (gcd_period (IEEE.to_int phaseIncrement) sineTableSize eq_refl)
    as [Hq [k Hk]].
  rewrite Nat2Z.inj_add, Z2Nat.id by exact Hq.
  rewrite Z.mul_add_distr_r, Hk.
  apply Z.mod_add. discriminate.
Qed.

Lemma phase_at_200 i : phase_at (i + 200) = phase_at i.
Proof.
  rewrite !phase_at_mod, to_int_phaseIncrement. unfold sineTableSize.
  replace (Z.of_nat (i + 200) * 2) with (Z.of_nat i * 2 + 4 * 100) by lia.
  apply Z.mod_add. lia.
Qed.

(** At phase 0 the angle is [+0], so [sin] returns [+0] whatever the
    library, and the sample is 127. *)
Lemma sine_audio_0 libm_sin : sine_audio libm_sin 0 = 127.
Proof. vm_compute. reflexivity. Qed.

(** The claim as C5 words it fails at phase 0: the sketch writes 127 where
    the worded sample is 128, whatever the library's [sin] is. *)
Lemma fixed_tone_at_phase_zero :
  ~ exists libm_sin : float -> float,
      pwm_writes (snd (modulate sketch_build libm_sin 0 initial))
      = [spec_fixedTone 0].
Proof.
  intros [libm_sin H]. rewrite spec_fixedTone_0 in H.
  change (pwm_writes (snd (modulate sketch_build libm_sin 0 initial)))
    with [sine_audio libm_sin 0] in H.
  rewrite sine_audio_0 in H. discriminate H.
Qed.

(** C5 (amended).  In a build whose fallback is the sine test, a call of
    [modulate] with no session active and the phase [p] inside the table
    writes [127 + (int)(127.0 * sin(angle))] to the carrier pin, [angle]
    being the [float] nearest to [p * 2.0 * PI / 100], and leaves the phase
    inside the table. *)
Theorem sine_mode_sample
  (b : Build) (libm_sin : float -> float) (adc : Z) (s : State) :
  TEST_MODE_DC b = false ->
  TEST_MODE_SINE b = true ->
  isPlaying s = false ->
  0 <= sinePhase s < sineTableSize ->
  snd (modulate b libm_sin adc s)
  = [LedcWrite PWM_PIN
       (127 + IEEE.to_int
                (127 * c_sin libm_sin
                         (IEEE.to_float32
                            (IEEE.of_unsigned (sinePhase s) * 2 * IEEE.PI
                             / IEEE.of_unsigned 100)))%float)]
  /\ 0 <= sinePhase (fst (modulate b libm_sin adc s)) < sineTableSize.
Proof.
  intros Hdc Hsine Hp Hph.
  split; [| now apply modulate_phase].
  rewrite (modulate_idle b libm_sin adc s (or_introl Hp)).
  unfold fallback. rewrite Hdc, Hsine. reflexivity.
Qed.

Lemma sine_mode_sample_witness :
  snd (modulate sketch_build bhaskara_sin 0 initial) = [LedcWrite PWM_PIN 127].
Proof.
  rewrite (proj1 (sine_mode_sample sketch_build bhaskara_sin 0 initial
                    eq_refl eq_refl eq_refl
                    (conj (Z.le_refl 0) (eq_refl : (0 ?= sineTableSize) = Lt)))).
  vm_compute. reflexivity.
Defined.

Lemma run_sine_samples libm_sin : forall adcs s,
  isPlaying s = false ->
  pwm_writes (snd (run sketch_build libm_sin (map Modulate adcs) s))
  = map (fun k => sine_audio libm_sin (Nat.iter k sine_next (sinePhase s)))
        (seq 0 (length adcs)).
Proof.
  induction adcs as [| adc adcs IH]; intros s Hp; [reflexivity |].
  cbn [map length]. rewrite run_cons. cbn [step snd].
  rewrite (modulate_idle sketch_build libm_sin adc s (or_introl Hp)).
  cbn [fst snd]. unfold pwm_writes in *. rewrite flat_map_app.
  change (fallback sketch_build libm_sin adc s)
    with (set_sinePhase (sine_next (sinePhase s)) s,
          sine_audio libm_sin (sinePhase s)).
  cbn [fst snd flat_map pwm_of app]. rewrite Z.eqb_refl. cbn [app].
  rewrite IH by exact Hp. cbn [sinePhase set_sinePhase].
  cbn [seq map Nat.iter]. f_equal.
  rewrite <- seq_shift, map_map. apply map_ext. intros k.
  now rewrite Nat.iter_succ_r.
Qed.

Lemma tone_samples_nth libm_sin adcs i :
  (i < length adcs)%nat ->
  nth_error (tone_samples libm_sin adcs) i
  = Some (sine_audio libm_sin (phase_at i)).
Proof.
  intros Hi. unfold tone_samples.
  rewrite (run_sine_samples libm_sin adcs initial eq_refl).
  rewrite nth_error_map, nth_error_seq.
  destruct (Nat.ltb_spec i (length adcs)); [reflexivity | lia].
Qed.

(** The claim as C6 words it fails at sample 0: in a run of 200 calls from
    boot the first sample is 127, where the worded value is 128, whatever
    the library's [sin] is. *)
Lemma tone_sample_zero :
  ~ exists libm_sin : float -> float,
      nth_error (tone_samples libm_sin (repeat 0 200)) 0
      = Some (spec_fixedTone (0 * 2.5)).
Proof.
  intros [libm_sin H].
  rewrite tone_samples_nth in H by (rewrite repeat_length; lia).
  rewrite Rmult_0_l, spec_fixedTone_0 in H.
  change (phase_at 0) with 0 in H. rewrite sine_audio_0 in H.
  discriminate H.
Qed.

(** C6 (amended).  Along a run of calls of [modulate] from boot in the
    sketch's build, the phase accumulator and the written samples repeat
    every 200 calls, and sample [i] is [127 + (int)(127.0 * sin(angle))],
    [angle] being the [float] nearest to [phase * 2.0 * PI / 100] for the
    accumulator's phase at call [i]. *)
Theorem tone_repeats_every_200
  (libm_sin : float -> float) (adcs : list Z) (i : nat) :
  (i + 200 < length adcs)%nat ->
  phase_at (i + 200) = phase_at i
  /\ nth_error (tone_samples libm_sin adcs) (i + 200)
     = nth_error (tone_samples libm_sin adcs) i
  /\ nth_error (tone_samples libm_sin adcs) i
     = Some (127 + IEEE.to_int
                     (127 * c_sin libm_sin
                              (IEEE.to_float32
                                 (IEEE.of_unsigned (phase_at i) * 2 * IEEE.PI
                                  / IEEE.of_unsigned 100)))%float).
Proof.
  intros Hi. split; [apply phase_at_200 |].
  rewrite !tone_samples_nth by lia. rewrite phase_at_200.
  split; reflexivity.
Qed.

Lemma tone_repeats_every_200_witness :
  nth_error (tone_samples bhaskara_sin (repeat 0 201)) 200
  = nth_error (tone_samples bhaskara_sin (repeat 0 201)) 0.
Proof.
  exact (proj1 (proj2 (tone_repeats_every_200 bhaskara_sin (repeat 0 201) 0%nat
                         ltac:(rewrite repeat_length; lia)))).
Defined.

(** ** The sketch on examples *)

Example phaseIncrement_value : phaseIncrement = 2.5%float.
Proof. vm_compute. reflexivity. Qed.

Example durationSeconds_100000 : durationSeconds 100000 = 2.5%float.
Proof. vm_compute. reflexivity. Qed.

(** Three bytes played, the finished line, silence, and a second press
    that plays the file from byte 0 again. *)
Example two_presses_play_twice :
  let out := snd (run playback_only_build bhaskara_sin two_presses initial) in
  pwm_writes out = [10; 200; 0; 0; 10; 200]
  /\ file_ops out
     = [SpiffsOpen true; FileRead 10; FileRead 200; FileRead 0; FileClose;
        SpiffsOpen true; FileRead 10; FileRead 200]
  /\ serial_lines out
     = [starting_line 3; PlaybackFinished; starting_line 3].
Proof. vm_compute. repeat split. Qed.

(** * Further properties of the sketch *)

(** ** The shapes of one call *)

Lemma byte_value_range x : 0 <= byte_value x <= 255.
Proof.
  unfold byte_value. pose proof (Strings.Byte.to_N_bounded x). lia.
Qed.

Lemma pwm_writes_app o1 o2 :
  pwm_writes (o1 ++ o2) = pwm_writes o1 ++ pwm_writes o2.
Proof. apply flat_map_app. Qed.

(** What [startPlayback] can do: report the file missing and change
    nothing; report a failed open; or open the file at byte 0. *)
Lemma startPlayback_cases b fs s :
  (startPlayback b fs s = (s, [SerialPrintln AudioFileNotFound]))
  \/ (snd (startPlayback b fs s) = [SpiffsOpen false; SerialPrintln FailedToOpen]
      /\ isPlaying (fst (startPlayback b fs s)) = isPlaying s
      /\ audioFile (fst (startPlayback b fs s)) = None)
  \/ (exists B,
         snd (startPlayback b fs s)
         = [SpiffsOpen true] ++ led b LED_BRIGHTNESS_PLAY
             ++ [SerialPrintln (starting_line (Z.of_nat (length B)))]
         /\ isPlaying (fst (startPlayback b fs s)) = true
         /\ audioFile (fst (startPlayback b fs s))
            = Some {| content := B; position := 0 |}).
Proof.
  unfold startPlayback, SPIFFS_exists, SPIFFS_open.
  destruct (audio_raw fs) as [d |]; [| now left].
  destruct (open_ok fs); cbn [audioFile set_audioFile].
  - right. right. exists d. repeat split.
  - right. left. repeat split.
Qed.

(** What [checkTrigger] can do to the playback: nothing, or, on a confirmed
    press with no session active, what [startPlayback] does. *)
Lemma checkTrigger_cases b pin m1 m2 fs s :
  (snd (checkTrigger b pin m1 m2 fs s) = []
   /\ isPlaying (fst (checkTrigger b pin m1 m2 fs s)) = isPlaying s
   /\ audioFile (fst (checkTrigger b pin m1 m2 fs s)) = audioFile s)
  \/ (pin = false /\ triggerState s = false /\ isPlaying s = false
      /\ triggerState (fst (checkTrigger b pin m1 m2 fs s)) = true
      /\ exists s0,
          isPlaying s0 = false /\ audioFile s0 = audioFile s
          /\ snd (checkTrigger b pin m1 m2 fs s) = snd (startPlayback b fs s0)
          /\ isPlaying (fst (checkTrigger b pin m1 m2 fs s))
             = isPlaying (fst (startPlayback b fs s0))
          /\ audioFile (fst (checkTrigger b pin m1 m2 fs s))
             = audioFile (fst (startPlayback b fs s0))).
Proof.
  unfold checkTrigger.
  set (s1 := if xorb (negb pin) (lastTriggerState s)
             then set_lastTriggerTime m1 s else s).
  assert (H1 : isPlaying s1 = isPlaying s /\ audioFile s1 = audioFile s
               /\ triggerState s1 = triggerState s).
  { unfold s1. destruct (xorb (negb pin) (lastTriggerState s)); auto. }
  destruct H1 as (Hp1 & Hf1 & Hg1).
  destruct (debounceDelay <? wrap32 (m2 - lastTriggerTime s1));
    [| left; cbn; auto].
  destruct (xorb (negb pin) (triggerState s1)) eqn:Hx; [| left; cbn; auto].
  destruct (triggerState (set_triggerState (negb pin) s1)
            && negb (isPlaying (set_triggerState (negb pin) s1))) eqn:Hc;
    [| left; cbn; auto].
  cbn [triggerState isPlaying set_triggerState] in Hc.
  apply andb_true_iff in Hc. destruct Hc as [Hr Hn].
  apply negb_true_iff in Hn. rewrite Hr, Hg1, xorb_true_l in Hx.
  apply negb_true_iff in Hx. apply negb_true_iff in Hr.
  right.
  split; [exact Hr |]. split; [exact Hx |]. split; [congruence |].
  destruct (startPlayback_trigger b fs (set_triggerState (negb pin) s1))
    as (_ & _ & E3).
  split.
  { destruct (startPlayback b fs (set_triggerState (negb pin) s1)) as [s2 o].
    cbn in E3 |- *. rewrite E3, Hr. reflexivity. }
  exists (set_triggerState (negb pin) s1).
  split; [exact Hn |]. split; [exact Hf1 |].
  destruct (startPlayback b fs (set_triggerState (negb pin) s1)) as [s2 o].
  cbn. auto.
Qed.

(** ** Values that reach the carrier pin *)

(** X1.  Whatever the state, a call of [modulate] that reads the file gets a
    byte, never the error value -1 of [read()], and writes that byte to the
    carrier pin: the [available()] test guards every read. *)
Theorem modulate_reads_bytes
  (b : Build) (libm_sin : float -> float) (adc : Z) (s : State) (v : Z) :
  In (FileRead v) (snd (modulate b libm_sin adc s)) ->
  0 <= v <= 255
  /\ pwm_writes (snd (modulate b libm_sin adc s)) = [v].
Proof.
  unfold modulate.
  destruct (fallback b libm_sin adc s) as [s' a].
  destruct (isPlaying s), (audioFile s) as [f |];
    try (cbn; intuition discriminate).
  unfold available, read.
  destruct (Nat.ltb_spec 0 (length (content f) - position f)) as [Hlt | Hge].
  - destruct (nth_error (content f) (position f)) as [x |] eqn:Hx.
    + cbn. intros [H | [H | []]]; [| discriminate].
      injection H as <-. split; [apply byte_value_range | reflexivity].
    + apply nth_error_None in Hx. lia.
  - unfold led. destruct (ENABLE_STATUS_LED b); cbn; intuition discriminate.
Qed.

Lemma modulate_reads_bytes_witness :
  0 <= 200 <= 255
  /\ pwm_writes (snd (modulate sketch_build bhaskara_sin 0 (playing three_bytes 1)))
     = [200].
Proof.
  apply (modulate_reads_bytes sketch_build bhaskara_sin 0 (playing three_bytes 1) 200).
  cbn. now left.
Defined.

Lemma quot_4_range adc : 0 <= adc <= 1023 -> 0 <= Z.quot adc 4 <= 255.
Proof.
  intros H. rewrite Z.quot_div_nonneg by lia.
  split; [apply Z.div_pos; lia |].
  assert (adc / 4 < 256) by (apply Z.div_lt_upper_bound; lia). lia.
Qed.

Lemma fallback_range b libm_sin adc s :
  fallback_fits_8_bits b [Modulate adc] ->
  0 <= snd (fallback b libm_sin adc s) <= 255.
Proof.
  intros Hfit. unfold fallback.
  destruct Hfit as [-> | [-> Hlive]]; [cbn; lia |].
  destruct (TEST_MODE_DC b); [cbn; lia |].
  destruct Hlive as [-> | Hadc]; [cbn; lia |].
  destruct (ENABLE_LIVE_INPUT b); [| cbn; lia].
  cbn [snd]. apply quot_4_range. apply Hadc. now left.
Qed.

Lemma step_pwm_range b libm_sin c s :
  fallback_fits_8_bits b [c] ->
  Forall (fun v => 0 <= v <= 255) (pwm_writes (snd (step b libm_sin c s))).
Proof.
  intros Hfit. destruct c as [adc | pin m1 m2 fs]; cbn [step].
  - destruct (isPlaying s) eqn:Hp;
      [destruct (audioFile s) as [f |] eqn:Hf |].
    + destruct (nth_error (content f) (position f)) as [x |] eqn:Hx.
      * rewrite (modulate_read b libm_sin adc s f x Hp Hf Hx). cbn.
        repeat constructor; apply byte_value_range.
      * rewrite (modulate_end b libm_sin adc s f Hp Hf Hx).
        unfold led. destruct (ENABLE_STATUS_LED b); cbn; repeat constructor; lia.
    + rewrite (modulate_idle b libm_sin adc s (or_intror Hf)). cbn.
      repeat constructor; now apply fallback_range.
    + rewrite (modulate_idle b libm_sin adc s (or_introl Hp)). cbn.
      repeat constructor; now apply fallback_range.
  - destruct (checkTrigger_cases b pin m1 m2 fs s)
      as [(E & _) | (_ & _ & _ & _ & s0 & _ & _ & E & _)]; rewrite E.
    + constructor.
    + destruct (startPlayback_cases b fs s0)
        as [E1 | [(E1 & _) | (B & E1 & _)]]; rewrite E1;
        unfold led; try destruct (ENABLE_STATUS_LED b); cbn; constructor.
Qed.

(** X2.  In a build whose fallback is the DC test or silence, or live input
    with every ADC reading below 1024, every duty value that any run of the
    sketch writes to the carrier pin, from any state, lies in 0..255. *)
Theorem duty_within_8_bits
  (b : Build) (libm_sin : float -> float) (cs : list Call) (s : State) :
  fallback_fits_8_bits b cs ->
  Forall (fun v => 0 <= v <= 255) (pwm_writes (snd (run b libm_sin cs s))).
Proof.
  revert s. induction cs as [| c cs IH]; intros s Hfit; [constructor |].
  rewrite run_cons. cbn [snd]. rewrite pwm_writes_app. apply Forall_app. split.
  - apply step_pwm_range.
    destruct Hfit as [H | [H1 [H2 | H2]]]; [now left | right; auto |].
    right. split; [exact H1 |]. right.
    intros adc [Ha | []]. apply H2. now left.
  - apply IH.
    destruct Hfit as [H | [H1 [H2 | H2]]]; [now left | right; auto |].
    right. split; [exact H1 |]. right.
    intros adc Ha. apply H2. now right.
Qed.

Lemma duty_within_8_bits_witness :
  Forall (fun v => 0 <= v <= 255)
    (pwm_writes (snd (run playback_only_build bhaskara_sin two_presses initial))).
Proof.
  apply duty_within_8_bits. right. split; [reflexivity |]. now left.
Defined.

(** ** The file handle over whole runs *)

Lemma handle_protocol_app o1 : forall o2 open,
  handle_protocol open (o1 ++ o2)
  = match handle_protocol open o1 with
    | Some open' => handle_protocol open' o2
    | None => None
    end.
Proof.
  induction o1 as [| e o1 IH]; intros o2 open; [reflexivity |].
  destruct e, open; cbn [app handle_protocol]; auto.
Qed.

Lemma step_protocol b libm_sin c s :
  consistent s ->
  handle_protocol (isPlaying s) (snd (step b libm_sin c s))
  = Some (isPlaying (fst (step b libm_sin c s))).
Proof.
  intros Hc. destruct c as [adc | pin m1 m2 fs]; cbn [step].
  - unfold consistent in Hc.
    destruct (audioFile s) as [f |] eqn:Hf.
    + destruct (nth_error (content f) (position f)) as [x |] eqn:Hx.
      * rewrite (modulate_read b libm_sin adc s f x Hc Hf Hx).
        cbn. now rewrite Hc.
      * rewrite (modulate_end b libm_sin adc s f Hc Hf Hx), Hc.
        unfold led. destruct (ENABLE_STATUS_LED b); reflexivity.
    + rewrite (modulate_idle b libm_sin adc s (or_intror Hf)). cbn.
      now destruct (fallback_playback b libm_sin adc s) as [-> _].
  - destruct (checkTrigger_cases b pin m1 m2 fs s)
      as [(E & Ep & _) | (_ & _ & Hp & _ & s0 & Hp0 & _ & E & Ep & _)];
      rewrite E, Ep; [reflexivity |].
    rewrite Hp.
    destruct (startPlayback_cases b fs s0)
      as [E1 | [(E1 & E2 & _) | (B & E1 & E2 & _)]].
    + rewrite E1. cbn. now rewrite Hp0.
    + rewrite E1, E2, Hp0. reflexivity.
    + rewrite E1, E2. unfold led. destruct (ENABLE_STATUS_LED b); reflexivity.
Qed.

(** X3.  In every run from boot, whatever the interleaving of [modulate]
    and [checkTrigger], the file is opened only while no handle is open,
    read and closed only while one is (no read after close, no second
    close), and at the end [isPlaying] tells whether the handle is open. *)
Theorem run_follows_handle_protocol
  (b : Build) (libm_sin : float -> float) (cs : list Call) :
  handle_protocol false (snd (run b libm_sin cs initial))
  = Some (isPlaying (fst (run b libm_sin cs initial))).
Proof.
  assert (H : forall s, consistent s ->
            handle_protocol (isPlaying s) (snd (run b libm_sin cs s))
            = Some (isPlaying (fst (run b libm_sin cs s)))).
  { induction cs as [| c cs IH]; intros s Hc; [reflexivity |].
    rewrite run_cons. cbn [fst snd].
    rewrite handle_protocol_app, (step_protocol b libm_sin c s Hc).
    apply IH.
    destruct c; cbn [step];
      [now apply modulate_consistent | now apply checkTrigger_consistent]. }
  exact (H initial eq_refl).
Qed.

(** ** The status LED *)


Lemma last_app_default {A} (l1 l2 : list A) (d : A) :
  last (l1 ++ l2) d = last l2 (last l1 d).
Proof.
  revert d. induction l1 as [| x l1 IH]; intros d; [reflexivity |].
  rewrite <- app_comm_cons, !last_cons. apply IH.
Qed.



(** ** When a session starts *)

Lemma starts_app o1 o2 : starts (o1 ++ o2) = (starts o1 + starts o2)%nat.
Proof. unfold starts. now rewrite filter_app, length_app. Qed.

Lemma startPlayback_starts b fs s : starts (snd (startPlayback b fs s)) = 1%nat.
Proof.
  destruct (startPlayback_cases b fs s)
    as [E1 | [(E1 & _) | (B & E1 & _)]]; rewrite E1; [reflexivity .. |].
  unfold led, starting_line.
  destruct (ENABLE_STATUS_LED b), (1048576 <=? Z.of_nat (length B)),
    (1024 <=? Z.of_nat (length B)); reflexivity.
Qed.

Lemma modulate_starts b libm_sin adc s :
  starts (snd (modulate b libm_sin adc s)) = 0%nat.
Proof.
  unfold modulate, read, led.
  destruct (fallback b libm_sin adc s) as [s' a].
  destruct (isPlaying s), (audioFile s) as [f |]; try reflexivity.
  destruct (0 <? available f)%nat.
  - now destruct (nth_error (content f) (position f)).
  - now destruct (ENABLE_STATUS_LED b).
Qed.

Lemma modulate_trigger b libm_sin adc s :
  same_trigger (fst (modulate b libm_sin adc s)) s.
Proof.
  assert (Hfb : same_trigger (fst (fallback b libm_sin adc s)) s).
  { unfold fallback, same_trigger.
    destruct (TEST_MODE_DC b), (TEST_MODE_SINE b), (ENABLE_LIVE_INPUT b);
      repeat split. }
  destruct (isPlaying s) eqn:Hp; [destruct (audioFile s) as [f |] eqn:Hf |].
  - destruct (nth_error (content f) (position f)) as [x |] eqn:Hx.
    + rewrite (modulate_read b libm_sin adc s f x Hp Hf Hx). repeat split.
    + rewrite (modulate_end b libm_sin adc s f Hp Hf Hx). repeat split.
  - now rewrite (modulate_idle b libm_sin adc s (or_intror Hf)).
  - now rewrite (modulate_idle b libm_sin adc s (or_introl Hp)).
Qed.

(** X4.  [checkTrigger] calls something only on a confirmed press: when it
    emits any event, the pin reads low, the confirmed level goes from low
    to high in this very call, no session is active, more than
    [debounceDelay] ms have passed since the last raw change, and what it
    calls is [startPlayback], once. *)
Theorem checkTrigger_acts_on_confirmed_press
  (b : Build) (pin : bool) (m1 m2 : Z) (fs : Spiffs) (s : State) :
  snd (checkTrigger b pin m1 m2 fs s) <> [] ->
  pin = false
  /\ triggerState s = false
  /\ triggerState (fst (checkTrigger b pin m1 m2 fs s)) = true
  /\ isPlaying s = false
  /\ debounceDelay
     < wrap32 (m2 - lastTriggerTime (fst (checkTrigger b pin m1 m2 fs s)))
  /\ starts (snd (checkTrigger b pin m1 m2 fs s)) = 1%nat.
Proof.
  intros Hout.
  destruct (checkTrigger_cases b pin m1 m2 fs s)
    as [(E & _) | (Hpin & Hg & Hp & Hg' & s0 & _ & _ & E & _)];
    [contradiction |].
  repeat (split; [assumption |]).
  split.
  - destruct (checkTrigger_trigger b pin m1 m2 fs s) as (_ & E2 & E3).
    cbv zeta in E2, E3. rewrite <- E2 in E3. rewrite Hg', Hg in E3.
    destruct (Z.ltb_spec debounceDelay
                (wrap32 (m2 - lastTriggerTime
                                (fst (checkTrigger b pin m1 m2 fs s)))));
      [assumption | discriminate E3].
  - rewrite E. apply startPlayback_starts.
Qed.

Lemma checkTrigger_acts_on_confirmed_press_witness :
  starts (snd (checkTrigger sketch_build false 1060 1060
                 {| audio_raw := Some three_bytes; open_ok := true |}
                 (set_lastTriggerState true (set_lastTriggerTime 1000 initial))))
  = 1%nat.
Proof.
  apply (checkTrigger_acts_on_confirmed_press sketch_build false 1060 1060
           {| audio_raw := Some three_bytes; open_ok := true |}
           (set_lastTriggerState true (set_lastTriggerTime 1000 initial))).
  vm_compute. discriminate.
Defined.

Lemma held_after_confirmation b libm_sin : forall cs s,
  trigger_held_at false cs ->
  triggerState s = true ->
  starts (snd (run b libm_sin cs s)) = 0%nat.
Proof.
  induction cs as [| c cs IH]; intros s Hheld Hg; [reflexivity |].
  assert (Htail : trigger_held_at false cs).
  { intros pin m1 m2 fs Hin. apply (Hheld pin m1 m2 fs). now right. }
  rewrite run_cons. cbn [snd]. rewrite starts_app.
  destruct c as [adc | pin m1 m2 fs]; cbn [step].
  - rewrite modulate_starts. apply IH; [exact Htail |].
    destruct (modulate_trigger b libm_sin adc s) as (_ & _ & E). congruence.
  - assert (Hpin : pin = false) by (apply (Hheld pin m1 m2 fs); now left).
    destruct (checkTrigger_cases b pin m1 m2 fs s)
      as [(E & _) | (_ & Hg0 & _)]; [| congruence].
    rewrite E. apply IH; [exact Htail |].
    destruct (checkTrigger_trigger b pin m1 m2 fs s) as (_ & _ & E3).
    cbv zeta in E3. rewrite E3, Hpin, Hg. cbn [negb xorb].
    now rewrite andb_false_r.
Qed.

Lemma held_at_most_once b libm_sin : forall cs s,
  trigger_held_at false cs ->
  (starts (snd (run b libm_sin cs s)) <= 1)%nat.
Proof.
  induction cs as [| c cs IH]; intros s Hheld; [cbn; lia |].
  assert (Htail : trigger_held_at false cs).
  { intros pin m1 m2 fs Hin. apply (Hheld pin m1 m2 fs). now right. }
  rewrite run_cons. cbn [snd]. rewrite starts_app.
  destruct c as [adc | pin m1 m2 fs]; cbn [step].
  - rewrite modulate_starts. now apply IH.
  - destruct (checkTrigger_cases b pin m1 m2 fs s)
      as [(E & _) | (_ & _ & _ & Hg' & s0 & _ & _ & E & _)]; rewrite E.
    + now apply IH.
    + rewrite startPlayback_starts.
      rewrite (held_after_confirmation b libm_sin cs _ Htail Hg'). lia.
Qed.

(** X5.  While every poll reads the trigger low (held), however long and
    whatever [modulate] does in between, [startPlayback] is called at most
    once, and not at all when the press was already confirmed: a held
    trigger does not replay the file when it ends. *)
Theorem held_trigger_starts_at_most_once
  (b : Build) (libm_sin : float -> float) (cs : list Call) (s : State) :
  trigger_held_at false cs ->
  (starts (snd (run b libm_sin cs s)) <= 1)%nat
  /\ (triggerState s = true -> starts (snd (run b libm_sin cs s)) = 0%nat).
Proof.
  intros Hheld. split;
    [now apply held_at_most_once | now apply held_after_confirmation].
Qed.

Lemma held_trigger_starts_at_most_once_witness :
  (starts (snd (run playback_only_build bhaskara_sin
                  (firstn 6 two_presses) initial)) <= 1)%nat.
Proof.
  apply (held_trigger_starts_at_most_once playback_only_build bhaskara_sin
           (firstn 6 two_presses) initial).
  intros pin m1 m2 fs Hin. cbn in Hin.
  repeat (destruct Hin as [Hin | Hin]; [congruence |]). destruct Hin.
Defined.

(** X6.  While every poll reads the trigger high (released), no run calls
    [startPlayback]; from an idle state the run stays idle and never
    touches the file system. *)
Theorem released_trigger_never_starts
  (b : Build) (libm_sin : float -> float) (cs : list Call) (s : State) :
  trigger_held_at true cs ->
  starts (snd (run b libm_sin cs s)) = 0%nat
  /\ (isPlaying s = false ->
      isPlaying (fst (run b libm_sin cs s)) = false
      /\ file_ops (snd (run b libm_sin cs s)) = []).
Proof.
  revert s. induction cs as [| c cs IH]; intros s Hrel; [now cbn |].
  assert (Htail : trigger_held_at true cs).
  { intros pin m1 m2 fs Hin. apply (Hrel pin m1 m2 fs). now right. }
  rewrite run_cons. cbn [fst snd]. rewrite starts_app.
  unfold file_ops. rewrite filter_app. fold (file_ops (snd (step b libm_sin c s))).
  destruct (IH (fst (step b libm_sin c s)) Htail) as [I1 I2].
  destruct c as [adc | pin m1 m2 fs]; cbn [step] in *.
  - rewrite modulate_starts, I1. split; [reflexivity |]. intros Hp.
    destruct (run_modulate_idle b libm_sin [adc] s Hp) as (Hq & _ & Hops & _).
    cbn [map] in Hq, Hops. rewrite run_cons in Hq, Hops.
    cbn [step run fst snd] in Hq, Hops. rewrite app_nil_r in Hops.
    destruct (I2 Hq) as [J1 J2]. fold (file_ops (snd (run b libm_sin cs
      (fst (modulate b libm_sin adc s))))). now rewrite Hops, J2.
  - assert (Hpin : pin = true) by (apply (Hrel pin m1 m2 fs); now left).
    destruct (checkTrigger_cases b pin m1 m2 fs s)
      as [(E & Ep & _) | (Hpin' & _)]; [| congruence].
    rewrite E, I1. split; [reflexivity |]. intros Hp.
    destruct I2 as [J1 J2]; [congruence |].
    fold (file_ops (snd (run b libm_sin cs
      (fst (checkTrigger b pin m1 m2 fs s))))). now rewrite J2.
Qed.

Lemma released_trigger_never_starts_witness :
  starts (snd (run sketch_build bhaskara_sin
                 [CheckTrigger true 10 10 {| audio_raw := Some three_bytes; open_ok := true |};
                  Modulate 0;
                  CheckTrigger true 80 80 {| audio_raw := Some three_bytes; open_ok := true |}]
                 initial)) = 0%nat.
Proof.
  apply released_trigger_never_starts.
  intros pin m1 m2 fs Hin. cbn in Hin.
  repeat (destruct Hin as [Hin | Hin]; [congruence |]). destruct Hin.
Defined.

(** ** Playback under interleaved polls *)

Lemma file_ops_app o1 o2 : file_ops (o1 ++ o2) = file_ops o1 ++ file_ops o2.
Proof. apply filter_app. Qed.

Lemma run_survives_polls b libm_sin : forall cs s f,
  isPlaying s = true ->
  audioFile s = Some f ->
  (position f + modulate_calls cs <= length (content f))%nat ->
  file_ops (snd (run b libm_sin cs s))
  = map FileRead
      (map byte_value
         (firstn (modulate_calls cs) (skipn (position f) (content f))))
  /\ pwm_writes (snd (run b libm_sin cs s))
     = map byte_value
         (firstn (modulate_calls cs) (skipn (position f) (content f)))
  /\ isPlaying (fst (run b libm_sin cs s)) = true
  /\ audioFile (fst (run b libm_sin cs s))
     = Some {| content := content f;
               position := position f + modulate_calls cs |}.
Proof.
  induction cs as [| c cs IH]; intros s f Hp Hf Hlen.
  - cbn. rewrite Nat.add_0_r. repeat split; [exact Hp |].
    rewrite Hf. now destruct f.
  - rewrite run_cons. cbn [fst snd]. rewrite file_ops_app, pwm_writes_app.
    destruct c as [adc | pin m1 m2 fs]; cbn [step].
    + change (modulate_calls (Modulate adc :: cs))
        with (S (modulate_calls cs)) in *.
      destruct (nth_error (content f) (position f)) as [x |] eqn:Hx.
      2:{ apply nth_error_None in Hx. lia. }
      rewrite (modulate_read b libm_sin adc s f x Hp Hf Hx). cbn [fst snd].
      destruct (IH (set_audioFile
                      (Some {| content := content f;
                               position := S (position f) |}) s)
                   {| content := content f; position := S (position f) |})
        as (I1 & I2 & I3 & I4); [exact Hp | reflexivity | cbn; lia |].
      cbn [content position] in I1, I2, I4.
      rewrite I1, I2, I3, I4, (skipn_nth_error _ _ _ Hx).
      cbn. repeat split. do 3 f_equal. lia.
    + change (modulate_calls (CheckTrigger pin m1 m2 fs :: cs))
        with (modulate_calls cs) in *.
      destruct (checkTrigger_while_playing b pin m1 m2 fs s Hp)
        as (E & Ep & Ef & _).
      rewrite E. cbn [app file_ops pwm_writes filter flat_map].
      apply IH; [exact Ep | congruence | exact Hlen].
Qed.

(** X7.  Polls of the trigger, with any pin levels and clock readings,
    interleaved with the calls of [modulate] in any order, do not disturb a
    session: after [n] calls of [modulate], [n] at most the length of the
    file, the bytes read and the duty values written are the first [n]
    bytes of the file, in order, and the session is still active at byte
    [n]. *)
Theorem playback_survives_polls
  (b : Build) (libm_sin : float -> float) (cs : list Call) (s : State)
  (B : list Byte.byte) :
  isPlaying s = true ->
  audioFile s = Some {| content := B; position := 0 |} ->
  (modulate_calls cs <= length B)%nat ->
  file_ops (snd (run b libm_sin cs s))
  = map FileRead (map byte_value (firstn (modulate_calls cs) B))
  /\ pwm_writes (snd (run b libm_sin cs s))
     = map byte_value (firstn (modulate_calls cs) B)
  /\ isPlaying (fst (run b libm_sin cs s)) = true
  /\ audioFile (fst (run b libm_sin cs s))
     = Some {| content := B; position := modulate_calls cs |}.
Proof.
  intros Hp Hf Hlen.
  exact (run_survives_polls b libm_sin cs s
           {| content := B; position := 0 |} Hp Hf Hlen).
Qed.

Lemma playback_survives_polls_witness :
  pwm_writes
    (snd (run sketch_build bhaskara_sin
            [Modulate 0;
             CheckTrigger true 2000 2000 {| audio_raw := None; open_ok := true |};
             CheckTrigger true 2060 2060 {| audio_raw := None; open_ok := true |};
             Modulate 0]
            (playing three_bytes 0)))
  = [10; 200].
Proof.
  exact (proj1 (proj2 (playback_survives_polls sketch_build bhaskara_sin
                         [Modulate 0;
                          CheckTrigger true 2000 2000
                            {| audio_raw := None; open_ok := true |};
                          CheckTrigger true 2060 2060
                            {| audio_raw := None; open_ok := true |};
                          Modulate 0]
                         (playing three_bytes 0) three_bytes
                         eq_refl eq_refl (le_S _ _ (le_n 2))))).
Defined.

(** ** A whole session *)

Lemma run_append b libm_sin cs1 : forall cs2 s,
  run b libm_sin (cs1 ++ cs2) s
  = (fst (run b libm_sin cs2 (fst (run b libm_sin cs1 s))),
     snd (run b libm_sin cs1 s)
       ++ snd (run b libm_sin cs2 (fst (run b libm_sin cs1 s)))).
Proof.
  induction cs1 as [| c cs1 IH]; intros cs2 s.
  - cbn [app run fst snd]. now destruct (run b libm_sin cs2 s).
  - rewrite <- app_comm_cons, !run_cons, IH. cbn [fst snd].
    now rewrite app_assoc.
Qed.

(** X8.  Starting a session from an idle state on a file of [n] bytes and
    calling [modulate] [n + 1] times brings the sketch back to the very
    state it started from: the debounce variables and the tone phase are
    untouched, so the test tone resumes where it was interrupted. *)
Theorem session_round_trip
  (b : Build) (libm_sin : float -> float) (fs : Spiffs) (s : State)
  (B : list Byte.byte) (adcs : list Z) :
  isPlaying s = false ->
  audioFile s = None ->
  audio_raw fs = Some B ->
  open_ok fs = true ->
  length adcs = S (length B) ->
  fst (run b libm_sin (map Modulate adcs) (fst (startPlayback b fs s))) = s.
Proof.
  intros Hp Hf HB Hok Hlen.
  assert (Es : fst (startPlayback b fs s)
               = set_isPlaying true
                   (set_audioFile (Some {| content := B; position := 0 |}) s)).
  { unfold startPlayback, SPIFFS_exists, SPIFFS_open. rewrite HB, Hok.
    reflexivity. }
  rewrite Es.
  destruct (exists_last (l := adcs)) as (front & adc & ->);
    [intros ->; discriminate |].
  rewrite length_app in Hlen. cbn in Hlen.
  assert (Hfront : length front = length B) by lia.
  rewrite map_app, run_append. cbn [fst map].
  rewrite (run_modulate_reads b libm_sin front _
             {| content := B; position := 0 |});
    [| reflexivity | reflexivity | cbn; lia].
  cbn [fst content position]. rewrite run_cons. cbn [step run fst].
  rewrite (modulate_end b libm_sin adc _
             {| content := B; position := 0 + length front |});
    [| reflexivity | reflexivity | cbn; apply nth_error_None; lia].
  destruct s as [t l g p a ph]. cbn in Hp, Hf |- *. now subst.
Qed.

Lemma session_round_trip_witness :
  fst (run sketch_build bhaskara_sin (map Modulate [0; 0; 0; 0])
         (fst (startPlayback sketch_build
                 {| audio_raw := Some three_bytes; open_ok := true |} initial)))
  = initial.
Proof.
  exact (session_round_trip sketch_build bhaskara_sin
           {| audio_raw := Some three_bytes; open_ok := true |} initial
           three_bytes [0; 0; 0; 0] eq_refl eq_refl eq_refl eq_refl eq_refl).
Defined.

(** ** The debounce sees only the trigger *)

Lemma poll_same_trigger b1 b2 p1 p2 s1 s2 :
  same_trigger s1 s2 -> same_reading p1 p2 ->
  same_trigger (poll b1 p1 s1) (poll b2 p2 s2).
Proof.
  intros (H1 & H2 & H3) (R1 & R2 & R3).
  destruct (poll_trigger b1 p1 s1) as (A1 & A2 & A3).
  destruct (poll_trigger b2 p2 s2) as (B1 & B2 & B3).
  cbv zeta in *. unfold same_trigger.
  rewrite A1, A2, A3, B1, B2, B3, H1, H2, H3, R1, R2, R3. auto.
Qed.

(** X9.  The confirmed trigger level depends on nothing but the debounce
    variables, the pin levels and the clock: [modulate] leaves the debounce
    variables as they are, and two runs of polls with the same pin levels
    and clock readings, from states with the same debounce variables,
    confirm the same levels, whatever the builds, the file systems and the
    playback states are. *)
Theorem debounce_ignores_playback (b1 b2 : Build) :
  (forall libm_sin adc s, same_trigger (fst (modulate b1 libm_sin adc s)) s)
  /\ (forall ps1 ps2 s1 s2,
         same_trigger s1 s2 ->
         Forall2 same_reading ps1 ps2 ->
         confirmed_levels b1 ps1 s1 = confirmed_levels b2 ps2 s2).
Proof.
  split; [intros; apply modulate_trigger |].
  induction ps1 as [| p1 ps1 IH]; intros ps2 s1 s2 Hs Hps;
    inversion Hps as [| ? p2 ? ps2' Hr Hrest]; subst; [reflexivity |].
  cbn [confirmed_levels].
  pose proof (poll_same_trigger b1 b2 p1 p2 s1 s2 Hs Hr) as Hs'.
  destruct Hs' as (T1 & T2 & T3).
  rewrite T3. f_equal. apply IH; [repeat split; assumption | exact Hrest].
Qed.

Lemma debounce_ignores_playback_witness :
  confirmed_levels sketch_build held_press initial
  = confirmed_levels live_build held_press (playing three_bytes 1).
Proof.
  apply (proj2 (debounce_ignores_playback sketch_build live_build)).
  - repeat split.
  - unfold held_press. repeat constructor.
Defined.

(** ** The tone the sketch plays *)

(** X10.  From boot, the phase at call [i] of the sine test is
    [2 * i mod 100]; it comes back to its value after [k] more calls
    exactly when [k] is a multiple of 50, and so do the samples every 50
    calls: at 40000 calls a second the test tone is an 800 Hz tone. *)
Theorem tone_period_is_50
  (libm_sin : float -> float) (adcs : list Z) (i k : nat) :
  (i + 50 < length adcs)%nat ->
  phase_at i = (2 * Z.of_nat i) mod 100
  /\ (phase_at (i + k) = phase_at i <-> (k mod 50 = 0)%nat)
  /\ nth_error (tone_samples libm_sin adcs) (i + 50)
     = nth_error (tone_samples libm_sin adcs) i.
Proof.
  intros Hi.
  assert (Hph : forall j, phase_at j = (2 * Z.of_nat j) mod 100).
  { intros j. rewrite phase_at_mod, to_int_phaseIncrement.
    unfold sineTableSize. f_equal. lia. }
  assert (Hiff : forall j, phase_at (i + j) = phase_at i <-> (j mod 50 = 0)%nat).
  { intros j. rewrite !Hph, Z.cong_iff_0.
    replace (2 * Z.of_nat (i + j) - 2 * Z.of_nat i) with (2 * Z.of_nat j) by lia.
    change 100 with (2 * 50).
    rewrite Z.mul_mod_distr_l by lia.
    change 50 with (Z.of_nat 50). rewrite <- Nat2Z.inj_mod. lia. }
  split; [apply Hph |]. split; [apply Hiff |].
  rewrite !tone_samples_nth by lia.
  now rewrite (proj2 (Hiff 50%nat) eq_refl).
Qed.

Lemma tone_period_is_50_witness :
  phase_at 7 = 14
  /\ nth_error (tone_samples bhaskara_sin (repeat 0 60)) 57
     = nth_error (tone_samples bhaskara_sin (repeat 0 60)) 7.
Proof.
  destruct (tone_period_is_50 bhaskara_sin (repeat 0 60) 7 0
              ltac:(rewrite repeat_length; lia)) as (H1 & _ & H3).
  split; [exact H1 | exact H3].
Defined.

(** ** From the trigger to the session *)

Lemma checkTrigger_no_flip b pin m1 m2 fs s :
  triggerState (fst (checkTrigger b pin m1 m2 fs s)) = triggerState s ->
  snd (checkTrigger b pin m1 m2 fs s) = []
  /\ isPlaying (fst (checkTrigger b pin m1 m2 fs s)) = isPlaying s
  /\ audioFile (fst (checkTrigger b pin m1 m2 fs s)) = audioFile s.
Proof.
  intros H.
  destruct (checkTrigger_cases b pin m1 m2 fs s)
    as [Hleft | (_ & Hg & _ & Hg' & _)]; [exact Hleft | congruence].
Qed.

Lemma checkTrigger_flip_idle b pin m1 m2 fs s :
  triggerState s = false -> isPlaying s = false ->
  triggerState (fst (checkTrigger b pin m1 m2 fs s)) = true ->
  starts (snd (checkTrigger b pin m1 m2 fs s)) = 1%nat.
Proof.
  intros Hg Hp. unfold checkTrigger.
  set (s1 := if xorb (negb pin) (lastTriggerState s)
             then set_lastTriggerTime m1 s else s).
  assert (H1 : isPlaying s1 = false /\ triggerState s1 = false).
  { unfold s1. destruct (xorb (negb pin) (lastTriggerState s)); auto. }
  destruct H1 as (Hp1 & Hg1).
  destruct (debounceDelay <? wrap32 (m2 - lastTriggerTime s1));
    [| cbn; congruence].
  destruct (xorb (negb pin) (triggerState s1)); [| cbn; congruence].
  cbn [triggerState isPlaying set_triggerState]. rewrite Hp1. cbn [negb].
  rewrite andb_true_r.
  destruct (negb pin); [| cbn; congruence].
  intros _.
  pose proof (startPlayback_starts b fs (set_triggerState true s1)) as H.
  destruct (startPlayback b fs (set_triggerState true s1)). exact H.
Qed.

Lemma run_polls_quiet b libm_sin : forall ps s,
  transitions (triggerState s) (confirmed_levels b ps s) = 0%nat ->
  snd (run b libm_sin (map poll_call ps) s) = []
  /\ isPlaying (fst (run b libm_sin (map poll_call ps) s)) = isPlaying s
  /\ audioFile (fst (run b libm_sin (map poll_call ps) s)) = audioFile s.
Proof.
  induction ps as [| p ps IH]; intros s H; [now cbn |].
  cbn [confirmed_levels transitions] in H.
  assert (Hsame : triggerState (poll b p s) = triggerState s).
  { destruct (triggerState s), (triggerState (poll b p s));
      cbn in H; congruence || lia. }
  rewrite Hsame, xorb_nilpotent in H. cbn [Nat.add] in H. rewrite <- Hsame in H.
  cbn [map]. rewrite run_cons. cbn [step poll_call fst snd].
  destruct (checkTrigger_no_flip b (pin_level p) (millis (clock1 p))
              (millis (clock2 p)) (spiffs p) s Hsame) as (E & Ep & Ef).
  destruct (IH (poll b p s) H) as (I1 & I2 & I3).
  unfold poll in I1, I2, I3. rewrite E, I1, I2, I3. auto.
Qed.

Lemma burst_is_quiet b s p rest :
  negb (pin_level p) <> lastTriggerState s ->
  chronological (clock1 p) (p :: rest) ->
  (forall q, In q (p :: rest) -> clock2 q <= clock1 p + debounceDelay) ->
  transitions (triggerState s) (confirmed_levels b (p :: rest) s) = 0%nat.
Proof.
  intros Hchg (_ & H2 & H3) Hin.
  destruct (poll_trigger b p s) as (_ & E2 & E3). cbv zeta in E2, E3.
  assert (Hx : xorb (negb (pin_level p)) (lastTriggerState s) = true).
  { destruct (pin_level p), (lastTriggerState s); cbn in *; congruence. }
  rewrite Hx in E2, E3. unfold millis in E3. rewrite wrap32_sub in E3.
  assert (Hp : clock2 p <= clock1 p + debounceDelay) by (apply Hin; now left).
  unfold debounceDelay in *. rewrite wrap32_small in E3 by lia.
  destruct (Z.ltb_spec 50 (clock2 p - clock1 p)); [lia |].
  cbn [andb] in E3. cbn [confirmed_levels transitions].
  rewrite E3, xorb_nilpotent. cbn [Nat.add]. rewrite <- E3.
  apply (quiet_in_window b (clock1 p + 50) rest (poll b p s)
           (clock1 p) (clock2 p) E2);
    [lia | unfold debounceDelay; lia | exact H3 |].
  intros q Hq. apply Hin. now right.
Qed.

(** X11.  A glitch starts nothing: when all the polls from the one that
    sees the raw level change fall within [debounceDelay] (50 ms) of it,
    whatever levels they read, [loop] opens no file, prints nothing and
    leaves the playback state as it is. *)
Theorem glitch_starts_nothing
  (b : Build) (libm_sin : float -> float) (s : State) (p : Poll)
  (rest : list Poll) :
  negb (pin_level p) <> lastTriggerState s ->
  chronological (clock1 p) (p :: rest) ->
  (forall q, In q (p :: rest) -> clock2 q <= clock1 p + debounceDelay) ->
  snd (run b libm_sin (map poll_call (p :: rest)) s) = []
  /\ isPlaying (fst (run b libm_sin (map poll_call (p :: rest)) s)) = isPlaying s
  /\ audioFile (fst (run b libm_sin (map poll_call (p :: rest)) s)) = audioFile s.
Proof.
  intros Hchg Hc Hin. apply run_polls_quiet.
  now apply burst_is_quiet.
Qed.

Lemma glitch_starts_nothing_witness :
  snd (run sketch_build bhaskara_sin (map poll_call bouncing_press) initial) = [].
Proof.
  apply (glitch_starts_nothing sketch_build bhaskara_sin initial
           (sample_poll false 1000)
           [sample_poll true 1010; sample_poll false 1020]
           (fun H => Bool.diff_true_false H)
           ltac:(cbn; lia)).
  intros q Hq. unfold debounceDelay. cbn in Hq.
  destruct Hq as [<- | [<- | [<- | []]]]; cbn; lia.
Defined.

Lemma held_polls ps :
  (forall q, In q ps -> pin_level q = false) ->
  trigger_held_at false (map poll_call ps).
Proof.
  intros H pin m1 m2 fs Hin. apply in_map_iff in Hin.
  destruct Hin as (q & E & Hq). injection E as <- _ _ _. now apply H.
Qed.

(** A press that the polls keep reading, first seen at [t1] and not yet
    confirmed, calls [startPlayback] once, at the first poll later than
    [debounceDelay] after [t1]. *)
Lemma pending_press_starts b libm_sin (t1 : Z) : forall ps s t,
  lastTriggerState s = true ->
  lastTriggerTime s = millis t1 ->
  triggerState s = false ->
  isPlaying s = false ->
  t1 <= t ->
  chronological t ps ->
  (forall q, In q ps -> pin_level q = false /\ clock2 q - t1 < 2 ^ 32) ->
  starts (snd (run b libm_sin (map poll_call ps) s))
  = (if existsb (overdue t1) ps then 1 else 0)%nat.
Proof.
  induction ps as [| p ps IH]; intros s t Hl Ht Hg Hp Hle Hc Hin;
    [reflexivity |].
  destruct Hc as (H1 & H2 & H3).
  destruct (Hin p (or_introl eq_refl)) as [Hpin Hlt].
  destruct (poll_trigger b p s) as (E1 & E2 & E3). cbv zeta in E1, E2, E3.
  rewrite Hpin, Hl in E2. rewrite Hpin in E1. cbn [negb xorb] in E1, E2.
  rewrite Hpin, Hl, Ht, Hg in E3. cbn [negb xorb] in E3.
  unfold millis in E3. rewrite wrap32_sub, wrap32_small in E3 by lia.
  rewrite andb_true_r in E3.
  cbn [map existsb]. rewrite run_cons. cbn [step poll_call fst snd].
  rewrite starts_app. fold (poll b p s). unfold overdue at 1.
  destruct (debounceDelay <? clock2 p - t1) eqn:Hd; cbn [orb].
  - rewrite (checkTrigger_flip_idle b _ _ _ _ s Hg Hp E3).
    rewrite (held_after_confirmation b libm_sin (map poll_call ps)
               (poll b p s)); [reflexivity | | exact E3].
    apply held_polls. intros q Hq. now apply Hin; right.
  - assert (Hsame : triggerState (poll b p s) = triggerState s) by congruence.
    destruct (checkTrigger_no_flip b _ _ _ _ s Hsame) as (E & Ep & _).
    rewrite E. cbn [starts filter length Nat.add].
    apply (IH (poll b p s) (clock2 p) E1 (eq_trans E2 Ht) E3);
      [unfold poll; congruence | lia | exact H3 |].
    intros q Hq. now apply Hin; right.
Qed.

(** X12.  A press starts one session: from an idle state with the trigger
    released, when the polls read the trigger low from the poll [p] on and
    the last poll comes more than [debounceDelay] (and less than 2^32 ms)
    after [p], [loop] calls [startPlayback] exactly once. *)
Theorem held_press_starts_once
  (b : Build) (libm_sin : float -> float) (s : State) (p : Poll)
  (rest : list Poll) :
  lastTriggerState s = false ->
  triggerState s = false ->
  isPlaying s = false ->
  (forall q, In q (p :: rest) -> pin_level q = false) ->
  chronological (clock1 p) (p :: rest) ->
  debounceDelay < clock2 (last rest p) - clock1 p < 2 ^ 32 ->
  starts (snd (run b libm_sin (map poll_call (p :: rest)) s)) = 1%nat.
Proof.
  intros Hl Hg Hp Hpins (_ & H2 & H3) Hlong.
  assert (Hpin : pin_level p = false) by (apply Hpins; now left).
  assert (Hrest : forall q, In q rest -> pin_level q = false)
    by (intros q Hq; apply Hpins; now right).
  pose proof (chronological_last rest (clock2 p) p H3) as Hlast.
  assert (Hp32 : 0 <= clock2 p - clock1 p < 2 ^ 32).
  { split; [lia |]. destruct rest as [| a l]; [cbn in Hlong; lia |].
    pose proof (chronological_later _ _ H3 _ (or_introl eq_refl)).
    specialize (Hlast a (or_introl eq_refl)).
    destruct H3 as (A1 & A2 & _). lia. }
  destruct (poll_trigger b p s) as (E1 & E2 & E3). cbv zeta in E1, E2, E3.
  rewrite Hpin, Hl in E2. rewrite Hpin in E1. cbn [negb xorb] in E1, E2.
  rewrite Hpin, Hl, Hg in E3. cbn [negb xorb] in E3.
  unfold millis in E3. rewrite wrap32_sub, wrap32_small in E3 by exact Hp32.
  rewrite andb_true_r in E3.
  cbn [map]. rewrite run_cons. cbn [step poll_call fst snd].
  rewrite starts_app. fold (poll b p s).
  destruct (debounceDelay <? clock2 p - clock1 p) eqn:Hd.
  - rewrite (checkTrigger_flip_idle b _ _ _ _ s Hg Hp E3).
    rewrite (held_after_confirmation b libm_sin (map poll_call rest)
               (poll b p s)); [reflexivity | now apply held_polls | exact E3].
  - assert (Hsame : triggerState (poll b p s) = triggerState s) by congruence.
    destruct (checkTrigger_no_flip b _ _ _ _ s Hsame) as (E & Ep & _).
    rewrite E. cbn [starts filter length Nat.add].
    rewrite (pending_press_starts b libm_sin (clock1 p) rest (poll b p s)
               (clock2 p) E1 E2 E3);
      [| unfold poll; congruence | lia | exact H3 |].
    + assert (Hex : existsb (overdue (clock1 p)) rest = true).
      { apply existsb_exists. exists (last rest p). split.
        - destruct rest as [| a l]; [| apply last_In].
          cbn in Hlong. apply Z.ltb_ge in Hd. lia.
        - unfold overdue. apply Z.ltb_lt. lia. }
      now rewrite Hex.
    + intros q Hq. split; [now apply Hrest |].
      specialize (Hlast q Hq). lia.
Qed.

Lemma held_press_starts_once_witness :
  starts (snd (run sketch_build bhaskara_sin (map poll_call held_press) initial))
  = 1%nat.
Proof.
  apply (held_press_starts_once sketch_build bhaskara_sin initial
           (sample_poll false 1000)
           (map (sample_poll false) [1010; 1020; 1030; 1040; 1050; 1060])
           eq_refl eq_refl eq_refl).
  - intros q Hq. cbn in Hq.
    destruct Hq as [<- | [<- | [<- | [<- | [<- | [<- | [<- | []]]]]]]];
      reflexivity.
  - cbn. lia.
  - unfold debounceDelay. cbn. lia.
Defined.

(** ** [setup] *)

Section WaitForSerial.

(** Whether [Serial] is true at the [k]-th look, the time of the [k]-th
    look and the time [setup] read [start], in ms since boot, unbounded. *)
Variable ready : nat -> bool.
Variable time : nat -> Z.
Variable started : Z.

Let obs (k : nat) : bool * Z := (ready k, millis (time k)).

Hypothesis first_look : 0 <= time 0 - started <= 2 ^ 32 - 3000.
Hypothesis delay_10 : forall k, 10 <= time (S k) - time k <= 2 ^ 32 - 3000.

Lemma wait_from : forall j k fuel,
  (300 - k <= j)%nat -> (j < fuel)%nat ->
  10 * Z.of_nat k <= time k - started < 2 ^ 32 ->
  exists n,
    Boot.wait_for_serial fuel (millis started) obs k = Some n
    /\ (k <= 300 -> k + n <= 300)%nat
    /\ (forall i, (k <= i < k + n)%nat ->
          ready i = false /\ time i - started < 3000)
    /\ (ready (k + n) = true \/ 3000 <= time (k + n) - started).
Proof.
  induction j as [| j IH]; intros k fuel Hj Hfuel Hk;
    (destruct fuel as [| fuel]; [lia |]); cbn [Boot.wait_for_serial];
    unfold obs at 1 2; cbn [fst snd]; unfold millis;
    rewrite wrap32_sub, wrap32_small by lia.
  - destruct (Z.ltb_spec (time k - started) 3000) as [Hlt | Hge]; [lia |].
    rewrite andb_false_r. exists 0%nat. rewrite Nat.add_0_r.
    split; [reflexivity |]. split; [lia |].
      split; [intros i Hi; lia | now right].
  - destruct (ready k) eqn:Hr; cbn [negb andb].
    + exists 0%nat. rewrite Nat.add_0_r.
      split; [reflexivity |]. split; [lia |].
      split; [intros i Hi; lia | now left].
    + destruct (Z.ltb_spec (time k - started) 3000) as [Hlt | Hge].
      * pose proof (delay_10 k) as Hd.
        destruct (IH (S k) fuel) as (n & E & B1 & B2 & B3); [lia | lia | lia |].
        unfold millis in E. rewrite E. cbn [option_map].
        exists (S n). rewrite Nat.add_succ_r.
        split; [reflexivity |]. split; [lia |]. split; [| exact B3].
        intros i Hi. destruct (Nat.eq_dec i k) as [-> | Hne]; [now split |].
        apply B2. lia.
      * exists 0%nat. rewrite Nat.add_0_r.
        split; [reflexivity |]. split; [lia |].
      split; [intros i Hi; lia | now right].
Qed.

(** X13.  When every [delay(10)] of the wait loop lasts at least 10 ms (and
    less than the 49 days after which [millis()] wraps), the wait for the
    serial monitor ends: with fuel for 301 looks the loop returns, after at
    most 300 delays, having gone on only while [Serial] was false and less
    than 3000 ms had passed, and stopping because [Serial] is true or
    3000 ms have passed. *)
Theorem wait_for_serial_ends (fuel : nat) :
  (300 < fuel)%nat ->
  exists n,
    Boot.wait_for_serial fuel (millis started) obs 0 = Some n
    /\ (n <= 300)%nat
    /\ (forall i, (i < n)%nat -> ready i = false /\ time i - started < 3000)
    /\ (ready n = true \/ 3000 <= time n - started).
Proof.
  intros Hfuel.
  destruct (wait_from 300 0 fuel) as (n & E & B1 & B2 & B3); [lia | lia | cbn; lia |].
  exists n. split; [exact E |]. split; [lia |]. split; [| exact B3].
  intros i Hi. apply B2. lia.
Qed.

End WaitForSerial.

Lemma wait_for_serial_ends_witness :
  exists n,
    Boot.wait_for_serial 301 (millis 5)
      (fun k => (Nat.leb 2 k, millis (5 + 10 * Z.of_nat k))) 0 = Some n
    /\ (n <= 300)%nat.
Proof.
  destruct (wait_for_serial_ends (Nat.leb 2) (fun k => 5 + 10 * Z.of_nat k) 5
              ltac:(change (2 ^ 32) with 4294967296; cbn; lia)
              ltac:(intros k; change (2 ^ 32) with 4294967296; cbv beta; lia)
              301 ltac:(lia))
    as (n & E & Hn & _).
  exists n. split; [exact E | exact Hn].
Defined.

Section SetupFacts.

Import String.StringSyntax.
Local Open Scope string_scope.

Lemma printing_only_app l1 l2 :
  forallb (fun a => negb (Boot.touches_hardware a)) (l1 ++ l2)
  = forallb (fun a => negb (Boot.touches_hardware a)) l1
    && forallb (fun a => negb (Boot.touches_hardware a)) l2.
Proof. apply forallb_app. Qed.

Lemma delays_print_only n :
  forallb (fun a => negb (Boot.touches_hardware a)) (repeat (Boot.Delay 10) n)
  = true.
Proof. induction n as [| n IH]; [reflexivity | exact IH]. Qed.

Lemma announce_prints_only b :
  forallb (fun a => negb (Boot.touches_hardware a)) (Boot.announce b) = true.
Proof.
  unfold Boot.announce, Boot.pin_report, Boot.mode_report.
  destruct (ENABLE_LIVE_INPUT b), (ENABLE_STATUS_LED b), (TEST_MODE_DC b),
    (TEST_MODE_SINE b); reflexivity.
Qed.

Lemma printing_only_io l :
  forallb (fun a => negb (Boot.touches_hardware a)) l = true ->
  Boot.io_events l = [] /\ forall p, ~ In (Boot.TickerAttach p) l.
Proof.
  induction l as [| a l IH]; intros H; [split; [reflexivity | intros p []] |].
  cbn [forallb] in H. apply andb_true_iff in H. destruct H as [Ha Hl].
  destruct (IH Hl) as [I1 I2]. split.
  - unfold Boot.io_events in *. cbn [flat_map]. rewrite I1.
    now destruct a.
  - intros p [-> | Hin]; [discriminate Ha | exact (I2 p Hin)].
Qed.

(** The shape of a [setup] that finds SPIFFS mounted. *)
Lemma setup_shape b fuel pf acts :
  Boot.spiffs_begin pf = true ->
  Boot.setup b fuel pf = Some acts ->
  exists head,
    acts = (head ++ Boot.bring_up b pf)
             ++ [Boot.TickerAttach Boot.ticker_period] ++ Boot.announce b
    /\ forallb (fun a => negb (Boot.touches_hardware a)) head = true.
Proof.
  intros Hok Hsetup. unfold Boot.setup in Hsetup.
  destruct (Boot.wait_for_serial fuel (Boot.start_millis pf)
              (Boot.serial_obs pf) 0) as [n |]; [| discriminate].
  injection Hsetup as <-.
  unfold Boot.after_wait. rewrite Hok. cbn [negb].
  exists ([Boot.SerialBegin 115200] ++ repeat (Boot.Delay 10) n
          ++ [Boot.Println "\n\n=== Ultrasonic Sound Projector ===";
              Boot.Println "Board: Lolin S2 Mini (ESP32-S2)";
              Boot.WiFiOff;
              Boot.Println "WiFi disabled";
              Boot.SpiffsBegin true]).
  split; [now rewrite <- !app_assoc |].
  cbn [app forallb Boot.touches_hardware negb andb].
  now rewrite printing_only_app, delays_print_only.
Qed.

(** What [setup] does to the hardware before it starts the ticker. *)
Lemma bring_up_io b pf :
  In (Boot.LedcAttach PWM_PIN 40000 8) (Boot.bring_up b pf)
  /\ (forall p, ~ In (Boot.TickerAttach p) (Boot.bring_up b pf))
  /\ file_ops (Boot.io_events (Boot.bring_up b pf))
     = (if SPIFFS_exists (Boot.flash pf)
        then [SpiffsOpen (open_ok (Boot.flash pf)); FileClose] else [])
  /\ pwm_writes (Boot.io_events (Boot.bring_up b pf))
     = (if TEST_MODE_DC b then [127] else [])
  /\ led_writes (Boot.io_events (Boot.bring_up b pf))
     = (if ENABLE_STATUS_LED b then [LED_BRIGHTNESS_READY] else []).
Proof.
  split.
  { unfold Boot.bring_up. apply in_or_app. right. apply in_or_app. right.
    apply in_or_app. left. cbn. auto. }
  unfold Boot.bring_up, Boot.probe, Boot.frequency_report,
    Boot.test_mode_start, Boot.led_start, SPIFFS_exists, SPIFFS_open.
  destruct (audio_raw (Boot.flash pf)), (open_ok (Boot.flash pf)),
    (1000 <? Z.abs (Boot.to_int32 (Boot.actual_freq pf) - Boot.PWM_FREQ)),
    (TEST_MODE_DC b), (TEST_MODE_SINE b), (ENABLE_STATUS_LED b);
    (split; [intros p Hin; cbn in Hin; intuition discriminate
            | repeat split]).
Qed.

(** X14.  When [SPIFFS.begin] fails, [setup] returns right after reporting
    it: it has configured no pin, attached no PWM, written no duty value,
    opened no file and, above all, not started the ticker, so [modulate]
    never runs and the carrier stays off, also in the test-tone builds. *)
Theorem setup_stops_without_spiffs
  (b : Build) (fuel : nat) (pf : Boot.Platform) (acts : list Boot.Action) :
  Boot.spiffs_begin pf = false ->
  Boot.setup b fuel pf = Some acts ->
  forallb (fun a => negb (Boot.touches_hardware a)) acts = true
  /\ last acts Boot.WiFiOff = Boot.Println "SPIFFS initialization failed!".
Proof.
  intros Hfail Hsetup. unfold Boot.setup in Hsetup.
  destruct (Boot.wait_for_serial fuel (Boot.start_millis pf)
              (Boot.serial_obs pf) 0) as [n |]; [| discriminate].
  injection Hsetup as <-.
  unfold Boot.after_wait. rewrite Hfail. cbn [negb].
  split.
  - cbn [app forallb Boot.touches_hardware negb andb].
    rewrite printing_only_app, delays_print_only. reflexivity.
  - cbn [app]. rewrite last_cons, last_app_default. reflexivity.
Qed.

Lemma setup_stops_without_spiffs_witness :
  exists acts,
    Boot.setup sketch_build 301 (Boot.bench false) = Some acts
    /\ forallb (fun a => negb (Boot.touches_hardware a)) acts = true.
Proof.
  eexists. split; [reflexivity |].
  exact (proj1 (setup_stops_without_spiffs sketch_build 301 (Boot.bench false)
                  _ eq_refl eq_refl)).
Defined.

(** X15.  When SPIFFS mounts, [setup] starts the ticker exactly once, and
    only after it has attached the carrier pin at 40000 Hz and 8 bits,
    closed the file it probed, written the DC test value (in that build
    only) and set the LED to the ready brightness (when there is one);
    after the ticker is started, [setup] only prints. *)
Theorem setup_starts_ticker_last
  (b : Build) (fuel : nat) (pf : Boot.Platform) (acts : list Boot.Action) :
  Boot.spiffs_begin pf = true ->
  Boot.setup b fuel pf = Some acts ->
  exists before,
    acts = before ++ [Boot.TickerAttach Boot.ticker_period] ++ Boot.announce b
    /\ In (Boot.LedcAttach PWM_PIN 40000 8) before
    /\ (forall p, ~ In (Boot.TickerAttach p) before)
    /\ forallb (fun a => negb (Boot.touches_hardware a)) (Boot.announce b) = true
    /\ file_ops (Boot.io_events before)
       = (if SPIFFS_exists (Boot.flash pf)
          then [SpiffsOpen (open_ok (Boot.flash pf)); FileClose] else [])
    /\ pwm_writes (Boot.io_events before)
       = (if TEST_MODE_DC b then [127] else [])
    /\ led_writes (Boot.io_events before)
       = (if ENABLE_STATUS_LED b then [LED_BRIGHTNESS_READY] else []).
Proof.
  intros Hok Hsetup.
  destruct (setup_shape b fuel pf acts Hok Hsetup) as (head & E & Hhead).
  destruct (printing_only_io head Hhead) as [Hio Hnt].
  destruct (bring_up_io b pf) as (B1 & B2 & B3 & B4 & B5).
  exists (head ++ Boot.bring_up b pf).
  split; [exact E |].
  split; [apply in_or_app; now right |].
  split.
  { intros p Hin. apply in_app_or in Hin.
    destruct Hin as [Hin | Hin]; [exact (Hnt p Hin) | exact (B2 p Hin)]. }
  split; [apply announce_prints_only |].
  unfold Boot.io_events in *. rewrite flat_map_app, Hio. cbn [app].
  repeat split; assumption.
Qed.

Lemma setup_starts_ticker_last_witness :
  exists acts before,
    Boot.setup sketch_build 301 (Boot.bench true) = Some acts
    /\ acts = before ++ [Boot.TickerAttach Boot.ticker_period]
                ++ Boot.announce sketch_build.
Proof.
  eexists.
  destruct (setup_starts_ticker_last sketch_build 301 (Boot.bench true)
              _ eq_refl eq_refl) as (before & E & _).
  exists before. split; [reflexivity | exact E].
Defined.



End SetupFacts.
